(** * Verification of the NIC register-access layer (driver/linux_net/nic.c)

    A shallow embedding of the register-dump catalogue, the statistics
    codec, the interrupt binding and the PCIe link audit of nic.c, with the
    properties of the driver specification stated and proved over it.

    Conventions.  C integers are [Z] with the wrap-around of their type
    written out; arrays are lists; a bit-field member of width [w] stores
    its initialiser modulo [2^w]; the constants of the register headers
    (farch_regs.h, ef10_regs.h), which nic.c only names through token
    pasting, are a parameter [hdr] mapping a macro name to its value. *)

From Stdlib Require Import ZArith Lia Bool.
From stdpp Require Import base numbers list strings.

Local Open Scope Z_scope.

(** ** C integer types *)

Definition wrap (bits : Z) (v : Z) : Z := v mod 2 ^ bits.

Definition u16 : Z -> Z := wrap 16.
Definition u32 : Z -> Z := wrap 32.
Definition u64 : Z -> Z := wrap 64.
(** [size_t] and [unsigned long] on the LP64 targets the driver builds for. *)
Definition size_t : Z -> Z := wrap 64.
Definition BITS_PER_LONG : Z := 64.

(** Storing [v] into an unsigned bit-field of [w] bits. *)
Definition bitfield (w : Z) (v : Z) : Z := v mod 2 ^ w.

(** ** Register dump (nic.c, "Register dump") *)

Definition REGISTER_REVISION_FA : Z := 1.
Definition REGISTER_REVISION_FB : Z := 2.
Definition REGISTER_REVISION_FC : Z := 3.
Definition REGISTER_REVISION_FZ : Z := 3. (* last Falcon arch revision *)
Definition REGISTER_REVISION_ED : Z := 4.
Definition REGISTER_REVISION_EZ : Z := 4. (* latest EF10 revision *)

(** [REGISTER_REVISION_ ## arch ## rev]: the macro a pasted name denotes. *)
Definition REGISTER_REVISION (arch rev : string) : Z :=
  let s := (arch +:+ rev)%string in
  if String.eqb s "FA" then REGISTER_REVISION_FA
  else if String.eqb s "FB" then REGISTER_REVISION_FB
  else if String.eqb s "FC" then REGISTER_REVISION_FC
  else if String.eqb s "FZ" then REGISTER_REVISION_FZ
  else if String.eqb s "ED" then REGISTER_REVISION_ED
  else if String.eqb s "EZ" then REGISTER_REVISION_EZ
  else 0.

(** [struct efx_nic_reg { u32 offset:24; u32 min_revision:3, max_revision:3; }] *)
Record efx_nic_reg := {
  reg_offset : Z;
  reg_min_revision : Z;
  reg_max_revision : Z
}.

(** [struct efx_nic_reg_table]: the same three members, then
    [u32 step:6, rows:21]. *)
Record efx_nic_reg_table := {
  tbl_offset : Z;
  tbl_min_revision : Z;
  tbl_max_revision : Z;
  tbl_step : Z;
  tbl_rows : Z
}.

Definition sizeof_efx_oword_t : Z := 16.

(** The test both passes apply to a descriptor:
    [revision >= min_revision && revision <= max_revision]. *)
Definition applicable (revision min_revision max_revision : Z) : bool :=
  (revision >=? min_revision) && (revision <=? max_revision).

Definition reg_applies (revision : Z) (reg : efx_nic_reg) : bool :=
  applicable revision (reg_min_revision reg) (reg_max_revision reg).

Definition tbl_applies (revision : Z) (table : efx_nic_reg_table) : bool :=
  applicable revision (tbl_min_revision table) (tbl_max_revision table).

Section Catalogue.

(** The value of an object-like macro of farch_regs.h / ef10_regs.h, by
    name.  Those headers are not part of the translated sources. *)
Variable hdr : string -> Z.

(** Whether [RX_FILTER_TBL0] is compiled in:
    [!defined(EFX_USE_KCOMPAT) || defined(EFX_HAVE_VMALLOC_REG_DUMP_BUF)]. *)
Variable vmalloc_reg_dump_buf : bool.

Definition paste_reg (arch min_rev max_rev name : string) : string :=
  (arch +:+ "R_" +:+ min_rev +:+ max_rev +:+ "_" +:+ name)%string.

Definition REGISTER (name arch min_rev max_rev : string) : efx_nic_reg :=
  {| reg_offset := bitfield 24 (hdr (paste_reg arch min_rev max_rev name));
     reg_min_revision := bitfield 3 (REGISTER_REVISION arch min_rev);
     reg_max_revision := bitfield 3 (REGISTER_REVISION arch max_rev) |}.

Definition REGISTER_AA name := REGISTER name "F" "A" "A".
Definition REGISTER_AB name := REGISTER name "F" "A" "B".
Definition REGISTER_AZ name := REGISTER name "F" "A" "Z".
Definition REGISTER_BB name := REGISTER name "F" "B" "B".
Definition REGISTER_BZ name := REGISTER name "F" "B" "Z".
Definition REGISTER_CZ name := REGISTER name "F" "C" "Z".
Definition REGISTER_DZ name := REGISTER name "E" "D" "Z".

Definition efx_nic_regs : list efx_nic_reg := [
    REGISTER_AZ "ADR_REGION";
    REGISTER_AZ "INT_EN_KER";
    REGISTER_BZ "INT_EN_CHAR";
    REGISTER_AZ "INT_ADR_KER";
    REGISTER_BZ "INT_ADR_CHAR";
    REGISTER_AZ "HW_INIT";
    REGISTER_CZ "USR_EV_CFG";
    REGISTER_AB "EE_SPI_HCMD";
    REGISTER_AB "EE_SPI_HADR";
    REGISTER_AB "EE_SPI_HDATA";
    REGISTER_AB "EE_BASE_PAGE";
    REGISTER_AB "EE_VPD_CFG0";
    REGISTER_AB "NIC_STAT";
    REGISTER_AB "GPIO_CTL";
    REGISTER_AB "GLB_CTL";
    REGISTER_BZ "DP_CTRL";
    REGISTER_AZ "MEM_STAT";
    REGISTER_AZ "CS_DEBUG";
    REGISTER_AZ "ALTERA_BUILD";
    REGISTER_AZ "CSR_SPARE";
    REGISTER_AB "PCIE_SD_CTL0123";
    REGISTER_AB "PCIE_SD_CTL45";
    REGISTER_AB "PCIE_PCS_CTL_STAT";
    REGISTER_AZ "EVQ_CTL";
    REGISTER_AZ "EVQ_CNT1";
    REGISTER_AZ "EVQ_CNT2";
    REGISTER_AZ "BUF_TBL_CFG";
    REGISTER_AZ "SRM_RX_DC_CFG";
    REGISTER_AZ "SRM_TX_DC_CFG";
    REGISTER_AZ "SRM_CFG";
    REGISTER_AZ "SRM_UPD_EVQ";
    REGISTER_AZ "SRAM_PARITY";
    REGISTER_AZ "RX_CFG";
    REGISTER_BZ "RX_FILTER_CTL";
    REGISTER_AZ "RX_DC_CFG";
    REGISTER_AZ "RX_DC_PF_WM";
    REGISTER_BZ "RX_RSS_TKEY";
    REGISTER_AA "RX_SELF_RST";
    REGISTER_CZ "RX_RSS_IPV6_REG1";
    REGISTER_CZ "RX_RSS_IPV6_REG2";
    REGISTER_CZ "RX_RSS_IPV6_REG3";
    REGISTER_AZ "TX_DC_CFG";
    REGISTER_AA "TX_CHKSM_CFG";
    REGISTER_AZ "TX_CFG";
    REGISTER_AZ "TX_RESERVED";
    REGISTER_BZ "TX_PACE";
    REGISTER_BB "TX_VLAN";
    REGISTER_BZ "TX_IPFIL_PORTEN";
    REGISTER_AB "MD_TXD";
    REGISTER_AB "MD_RXD";
    REGISTER_AB "MD_CS";
    REGISTER_AB "MD_PHY_ADR";
    REGISTER_AB "MD_ID";
    REGISTER_AB "MAC_STAT_DMA";
    REGISTER_AB "MAC_CTRL";
    REGISTER_BB "GEN_MODE";
    REGISTER_AB "MAC_MC_HASH_REG0";
    REGISTER_AB "MAC_MC_HASH_REG1";
    REGISTER_AB "GM_CFG1";
    REGISTER_AB "GM_CFG2";
    REGISTER_AB "GM_MAX_FLEN";
    REGISTER_AB "GM_ADR1";
    REGISTER_AB "GM_ADR2";
    REGISTER_AB "GMF_CFG0";
    REGISTER_AB "GMF_CFG1";
    REGISTER_AB "GMF_CFG2";
    REGISTER_AB "GMF_CFG3";
    REGISTER_AB "GMF_CFG4";
    REGISTER_AB "GMF_CFG5";
    REGISTER_BB "TX_SRC_MAC_CTL";
    REGISTER_AB "XM_ADR_LO";
    REGISTER_AB "XM_ADR_HI";
    REGISTER_AB "XM_GLB_CFG";
    REGISTER_AB "XM_TX_CFG";
    REGISTER_AB "XM_RX_CFG";
    REGISTER_AB "XM_MGT_INT_MASK";
    REGISTER_AB "XM_FC";
    REGISTER_AB "XM_PAUSE_TIME";
    REGISTER_AB "XM_TX_PARAM";
    REGISTER_AB "XM_RX_PARAM";
    REGISTER_AB "XX_PWR_RST";
    REGISTER_AB "XX_SD_CTL";
    REGISTER_AB "XX_TXDRV_CTL";
    REGISTER_DZ "BIU_HW_REV_ID";
    REGISTER_DZ "MC_DB_LWRD";
    REGISTER_DZ "MC_DB_HWRD"
  ].

(** [REGISTER_TABLE_DIMENSIONS(_, offset, arch, min_rev, max_rev, step, rows)];
    the first argument (the table's name) does not reach the descriptor and
    is kept beside it. *)
Definition REGISTER_TABLE_DIMENSIONS (name : string) (offset : Z)
    (arch min_rev max_rev : string) (step rows : Z)
    : string * efx_nic_reg_table :=
  (name,
   {| tbl_offset := bitfield 24 offset;
      tbl_min_revision := bitfield 3 (REGISTER_REVISION arch min_rev);
      tbl_max_revision := bitfield 3 (REGISTER_REVISION arch max_rev);
      tbl_step := bitfield 6 step;
      tbl_rows := bitfield 21 rows |}).

Definition REGISTER_TABLE (name arch min_rev max_rev : string)
    : list (string * efx_nic_reg_table) :=
  let sym := paste_reg arch min_rev max_rev name in
  [REGISTER_TABLE_DIMENSIONS name (hdr sym) arch min_rev max_rev
     (hdr (sym +:+ "_STEP")) (hdr (sym +:+ "_ROWS"))].

Definition REGISTER_TABLE_AA name := REGISTER_TABLE name "F" "A" "A".
Definition REGISTER_TABLE_AZ name := REGISTER_TABLE name "F" "A" "Z".
Definition REGISTER_TABLE_BB name := REGISTER_TABLE name "F" "B" "B".
Definition REGISTER_TABLE_BZ name := REGISTER_TABLE name "F" "B" "Z".
Definition REGISTER_TABLE_BB_CZ (name : string)
    : list (string * efx_nic_reg_table) :=
  [REGISTER_TABLE_DIMENSIONS name (hdr ("FR_BZ_" +:+ name)) "F" "B" "B"
     (hdr ("FR_BZ_" +:+ name +:+ "_STEP"))
     (hdr ("FR_BB_" +:+ name +:+ "_ROWS"));
   REGISTER_TABLE_DIMENSIONS name (hdr ("FR_BZ_" +:+ name)) "F" "C" "Z"
     (hdr ("FR_BZ_" +:+ name +:+ "_STEP"))
     (hdr ("FR_CZ_" +:+ name +:+ "_ROWS"))].
Definition REGISTER_TABLE_CZ name := REGISTER_TABLE name "F" "C" "Z".
Definition REGISTER_TABLE_DZ name := REGISTER_TABLE name "E" "D" "Z".

(** The initialiser list of [efx_nic_reg_tables], one macro use per line;
    a macro use expands to one or two array elements. *)
Definition efx_nic_reg_tables_init : list (string * efx_nic_reg_table) :=
  REGISTER_TABLE_BB "TX_IPFIL_TBL" ++
  REGISTER_TABLE_BB "TX_SRC_MAC_TBL" ++
  REGISTER_TABLE_AA "RX_DESC_PTR_TBL_KER" ++
  REGISTER_TABLE_BB_CZ "RX_DESC_PTR_TBL" ++
  REGISTER_TABLE_AA "TX_DESC_PTR_TBL_KER" ++
  REGISTER_TABLE_BB_CZ "TX_DESC_PTR_TBL" ++
  REGISTER_TABLE_AA "EVQ_PTR_TBL_KER" ++
  REGISTER_TABLE_BB_CZ "EVQ_PTR_TBL" ++
  [REGISTER_TABLE_DIMENSIONS "BUF_FULL_TBL_KER" (hdr "FR_AA_BUF_FULL_TBL_KER")
     "F" "A" "A" 8 1024] ++
  [REGISTER_TABLE_DIMENSIONS "BUF_FULL_TBL" (hdr "FR_BZ_BUF_FULL_TBL")
     "F" "B" "Z" 8 1024] ++
  REGISTER_TABLE_CZ "RX_MAC_FILTER_TBL0" ++
  REGISTER_TABLE_BB_CZ "TIMER_TBL" ++
  REGISTER_TABLE_BB_CZ "TX_PACE_TBL" ++
  REGISTER_TABLE_BZ "RX_INDIRECTION_TBL" ++
  REGISTER_TABLE_CZ "TX_MAC_FILTER_TBL0" ++
  REGISTER_TABLE_CZ "MC_TREG_SMEM" ++
  (if vmalloc_reg_dump_buf then REGISTER_TABLE_BZ "RX_FILTER_TBL0" else []) ++
  REGISTER_TABLE_DZ "BIU_MC_SFT_STATUS".

Definition efx_nic_reg_tables : list efx_nic_reg_table :=
  map snd efx_nic_reg_tables_init.

End Catalogue.


(** *** The two passes over the catalogue *)

(** One access to the device made through an io.h helper. *)
Inductive io_read :=
  | Reado (reg : Z)                 (* efx_reado(efx, buf, reg) *)
  | Readd (reg : Z)                 (* efx_readd(efx, buf, reg) *)
  | SramReadq (offset index : Z)    (* efx_sram_readq(efx, membase + offset, buf, index) *)
  | ReadoTable (reg index : Z).     (* efx_reado_table(efx, buf, reg, index) *)

(** Modelled from the spec: the io.h read helpers [efx_reado], [efx_readd],
    [efx_sram_readq] and [efx_reado_table], which are not part of the
    translated sources.  A flat register and an indexed table entry are
    read as one 128-bit value, a step-4 row as one 32-bit value and a step-8
    row as one 64-bit value; the helper stores that many bytes at the
    pointer it is given. *)
Definition io_width (op : io_read) : Z :=
  match op with
  | Reado _ => sizeof_efx_oword_t
  | Readd _ => 4
  | SramReadq _ _ => 8
  | ReadoTable _ _ => sizeof_efx_oword_t
  end.

(** The [n] low bytes of [v], least significant first. *)
Fixpoint le_bytes (n : nat) (v : Z) : list Z :=
  match n with
  | O => []
  | S n' => v mod 256 :: le_bytes n' (v / 256)
  end.

Section Dump.

(** The value the device returns for an access. *)
Variable dev : io_read -> Z.

Definition io_data (op : io_read) : list Z :=
  le_bytes (Z.to_nat (io_width op)) (dev op).

(** The dump in progress: [buf] is the distance the [buf] pointer has
    advanced from the start of the caller's buffer, [mem] the buffer's
    bytes, [reads] the accesses made so far, each with the position its
    result was stored at. *)
Record dump := {
  buf : Z;
  mem : list Z;
  reads : list (Z * io_read)
}.

(** How a run of [efx_nic_get_regs] ends. *)
Inductive outcome :=
  | Done (d : dump)        (* fell off the end of the function *)
  | Warned (d : dump)      (* default: WARN_ON(1); return; *)
  | Overrun (d : dump).    (* a helper was given a pointer past the buffer *)

(** Storing [bytes] at position [pos] of the buffer; [None] when they do
    not fit. *)
Definition store (pos : Z) (bytes : list Z) (m : list Z) : option (list Z) :=
  if (0 <=? pos) && (pos + Z.of_nat (length bytes) <=? Z.of_nat (length m))
  then Some (take (Z.to_nat pos) m ++ bytes ++
             drop (Z.to_nat pos + length bytes) m)
  else None.

(** A helper call with the current [buf], followed by [buf += size]. *)
Definition read_into (op : io_read) (size : Z) (d : dump) : option dump :=
  match store (buf d) (io_data op) (mem d) with
  | Some m => Some {| buf := buf d + size; mem := m;
                      reads := reads d ++ [(buf d, op)] |}
  | None => None
  end.

(** [size_t efx_nic_get_regs_len(struct efx_nic *efx)], first loop. *)
Fixpoint regs_len_loop (revision : Z) (regs : list efx_nic_reg) (len : Z) : Z :=
  match regs with
  | [] => len
  | reg :: rest =>
      regs_len_loop revision rest
        (if reg_applies revision reg
         then size_t (len + sizeof_efx_oword_t) else len)
  end.

(** Second loop: [len += table->rows * min_t(size_t, table->step, 16)]. *)
Fixpoint tables_len_loop (revision : Z) (tables : list efx_nic_reg_table)
    (len : Z) : Z :=
  match tables with
  | [] => len
  | table :: rest =>
      tables_len_loop revision rest
        (if tbl_applies revision table
         then size_t (len + size_t (tbl_rows table * Z.min (tbl_step table) 16))
         else len)
  end.

Definition get_regs_len_of (regs : list efx_nic_reg)
    (tables : list efx_nic_reg_table) (revision : Z) : Z :=
  tables_len_loop revision tables (regs_len_loop revision regs 0).

(** [void efx_nic_get_regs(struct efx_nic *efx, void *buf)], first loop. *)
Fixpoint regs_loop (revision : Z) (regs : list efx_nic_reg) (d : dump)
    : outcome :=
  match regs with
  | [] => Done d
  | reg :: rest =>
      if reg_applies revision reg then
        match read_into (Reado (reg_offset reg)) sizeof_efx_oword_t d with
        | Some d' => regs_loop revision rest d'
        | None => Overrun d
        end
      else regs_loop revision rest d
  end.

(** The [switch (table->step)] of the row loop; [None] is its [default]. *)
Definition row_read (table : efx_nic_reg_table) (i : Z) : option io_read :=
  let step := tbl_step table in
  if step =? 4 then Some (Readd (tbl_offset table + 4 * i))
  else if step =? 8 then Some (SramReadq (tbl_offset table) i)
  else if step =? 16 then Some (ReadoTable (tbl_offset table) i)
  else if step =? 32 then Some (ReadoTable (tbl_offset table) (2 * i))
  else None.

(** [for (i = 0; i < table->rows; i++)] with [todo] rows left. *)
Fixpoint rows_loop (table : efx_nic_reg_table) (size : Z) (todo : nat)
    (i : Z) (d : dump) : outcome :=
  match todo with
  | O => Done d
  | S todo' =>
      match row_read table i with
      | None => Warned d
      | Some op =>
          match read_into op size d with
          | Some d' => rows_loop table size todo' (i + 1) d'
          | None => Overrun d
          end
      end
  end.

(** Second loop of [efx_nic_get_regs]. *)
Fixpoint tables_loop (revision : Z) (tables : list efx_nic_reg_table)
    (d : dump) : outcome :=
  match tables with
  | [] => Done d
  | table :: rest =>
      if negb (tbl_applies revision table) then tables_loop revision rest d
      else
        let size := Z.min (tbl_step table) 16 in
        match rows_loop table size (Z.to_nat (tbl_rows table)) 0 d with
        | Done d' => tables_loop revision rest d'
        | stop => stop
        end
  end.

Definition get_regs_of (regs : list efx_nic_reg)
    (tables : list efx_nic_reg_table) (revision : Z) (buffer : list Z)
    : outcome :=
  match regs_loop revision regs {| buf := 0; mem := buffer; reads := [] |} with
  | Done d => tables_loop revision tables d
  | stop => stop
  end.

End Dump.

Definition efx_nic_get_regs_len (hdr : string -> Z) (vmalloc : bool)
    (revision : Z) : Z :=
  get_regs_len_of (efx_nic_regs hdr) (efx_nic_reg_tables hdr vmalloc) revision.

Definition efx_nic_get_regs (hdr : string -> Z) (vmalloc : bool)
    (dev : io_read -> Z) (revision : Z) (buffer : list Z) : outcome :=
  get_regs_of dev (efx_nic_regs hdr) (efx_nic_reg_tables hdr vmalloc)
    revision buffer.

(** The bytes stored by the accesses of a dump, in the order made. *)
Definition bytes_written (d : dump) : Z :=
  foldr (fun r acc => io_width r.2 + acc) 0 (reads d).

(** The invariant of §3 on a table descriptor: [step] is 4, 8, 16 or 32. *)
Definition step_ok (table : efx_nic_reg_table) : bool :=
  (tbl_step table =? 4) || (tbl_step table =? 8) ||
  (tbl_step table =? 16) || (tbl_step table =? 32).

(** *** A header instance

    Values for the table macros, of the kind farch_regs.h and ef10_regs.h
    give them, to evaluate the catalogue on.  Names not listed (the flat
    registers' offsets) read as 0. *)
Definition sample_macros : list (string * Z) := [
  ("FR_BB_TX_IPFIL_TBL", 0xb00);
  ("FR_BB_TX_IPFIL_TBL_STEP", 16); ("FR_BB_TX_IPFIL_TBL_ROWS", 16);
  ("FR_BB_TX_SRC_MAC_TBL", 0x1000);
  ("FR_BB_TX_SRC_MAC_TBL_STEP", 16); ("FR_BB_TX_SRC_MAC_TBL_ROWS", 16);
  ("FR_AA_RX_DESC_PTR_TBL_KER", 0x11800);
  ("FR_AA_RX_DESC_PTR_TBL_KER_STEP", 16); ("FR_AA_RX_DESC_PTR_TBL_KER_ROWS", 4);
  ("FR_BZ_RX_DESC_PTR_TBL", 0xf40000); ("FR_BZ_RX_DESC_PTR_TBL_STEP", 16);
  ("FR_BB_RX_DESC_PTR_TBL_ROWS", 4096); ("FR_CZ_RX_DESC_PTR_TBL_ROWS", 1024);
  ("FR_AA_TX_DESC_PTR_TBL_KER", 0x11900);
  ("FR_AA_TX_DESC_PTR_TBL_KER_STEP", 16); ("FR_AA_TX_DESC_PTR_TBL_KER_ROWS", 8);
  ("FR_BZ_TX_DESC_PTR_TBL", 0xf50000); ("FR_BZ_TX_DESC_PTR_TBL_STEP", 16);
  ("FR_BB_TX_DESC_PTR_TBL_ROWS", 4096); ("FR_CZ_TX_DESC_PTR_TBL_ROWS", 1024);
  ("FR_AA_EVQ_PTR_TBL_KER", 0x11a00);
  ("FR_AA_EVQ_PTR_TBL_KER_STEP", 16); ("FR_AA_EVQ_PTR_TBL_KER_ROWS", 4);
  ("FR_BZ_EVQ_PTR_TBL", 0xf60000); ("FR_BZ_EVQ_PTR_TBL_STEP", 16);
  ("FR_BB_EVQ_PTR_TBL_ROWS", 4096); ("FR_CZ_EVQ_PTR_TBL_ROWS", 1024);
  ("FR_AA_BUF_FULL_TBL_KER", 0x18000);
  ("FR_BZ_BUF_FULL_TBL", 0x800000);
  ("FR_CZ_RX_MAC_FILTER_TBL0", 0xf00010);
  ("FR_CZ_RX_MAC_FILTER_TBL0_STEP", 32); ("FR_CZ_RX_MAC_FILTER_TBL0_ROWS", 512);
  ("FR_BZ_TIMER_TBL", 0xf70000); ("FR_BZ_TIMER_TBL_STEP", 16);
  ("FR_BB_TIMER_TBL_ROWS", 4096); ("FR_CZ_TIMER_TBL_ROWS", 1024);
  ("FR_BZ_TX_PACE_TBL", 0xf80000); ("FR_BZ_TX_PACE_TBL_STEP", 16);
  ("FR_BB_TX_PACE_TBL_ROWS", 4096); ("FR_CZ_TX_PACE_TBL_ROWS", 1024);
  ("FR_BZ_RX_INDIRECTION_TBL", 0xfb0000);
  ("FR_BZ_RX_INDIRECTION_TBL_STEP", 16); ("FR_BZ_RX_INDIRECTION_TBL_ROWS", 128);
  ("FR_CZ_TX_MAC_FILTER_TBL0", 0xfe0010);
  ("FR_CZ_TX_MAC_FILTER_TBL0_STEP", 32); ("FR_CZ_TX_MAC_FILTER_TBL0_ROWS", 512);
  ("FR_CZ_MC_TREG_SMEM", 0xff0000);
  ("FR_CZ_MC_TREG_SMEM_STEP", 4); ("FR_CZ_MC_TREG_SMEM_ROWS", 512);
  ("FR_BZ_RX_FILTER_TBL0", 0xf00000);
  ("FR_BZ_RX_FILTER_TBL0_STEP", 32); ("FR_BZ_RX_FILTER_TBL0_ROWS", 8192);
  ("ER_DZ_BIU_MC_SFT_STATUS", 0x10);
  ("ER_DZ_BIU_MC_SFT_STATUS_STEP", 4); ("ER_DZ_BIU_MC_SFT_STATUS_ROWS", 8)
].

Fixpoint macro_value (macros : list (string * Z)) (name : string) : Z :=
  match macros with
  | [] => 0
  | (n, v) :: rest => if String.eqb n name then v else macro_value rest name
  end.

Definition sample_hdr : string -> Z := macro_value sample_macros.

(** A device whose every access returns the same pattern. *)
Definition sample_dev (op : io_read) : Z := 0xa5.

(** *** Reading the register dump's results *)

(** The sums the two passes accumulate, without the wrap-around of
    [size_t]. *)
Definition regs_bytes (revision : Z) (regs : list efx_nic_reg) : Z :=
  foldr (fun reg acc =>
           (if reg_applies revision reg then sizeof_efx_oword_t else 0) + acc)
        0 regs.

Definition tables_bytes (revision : Z) (tables : list efx_nic_reg_table) : Z :=
  foldr (fun t acc =>
           (if tbl_applies revision t
            then tbl_rows t * Z.min (tbl_step t) 16 else 0) + acc)
        0 tables.

(** The ranges the bit-fields [step:6] and [rows:21] keep their members
    in. *)
Definition tbl_fields_ok (t : efx_nic_reg_table) : Prop :=
  0 <= tbl_step t < 2 ^ 6 /\ 0 <= tbl_rows t < 2 ^ 21.

(** The bytes the accesses made so far have delivered, in order. *)
Definition delivered (dev : io_read -> Z) (rs : list (Z * io_read))
    : list Z :=
  concat (map (fun r => io_data dev r.2) rs).

(** What holds of a dump between two helper calls: the pointer is inside
    the buffer, everything before it came from the device, and the
    accesses were stored back to back. *)
Record dump_inv (dev : io_read -> Z) (d : dump) : Prop := {
  inv_pos : 0 <= buf d <= Z.of_nat (length (mem d));
  inv_prefix : take (Z.to_nat (buf d)) (mem d) = delivered dev (reads d);
  inv_count : bytes_written d = buf d
}.

(** The accesses of the first loop, from position [pos] on. *)
Fixpoint regs_reads (revision : Z) (regs : list efx_nic_reg) (pos : Z)
    : list (Z * io_read) :=
  match regs with
  | [] => []
  | reg :: rest =>
      if reg_applies revision reg
      then (pos, Reado (reg_offset reg)) ::
           regs_reads revision rest (pos + sizeof_efx_oword_t)
      else regs_reads revision rest pos
  end.

(** The access the row loop makes for row [i] of a table. *)
Definition row_op (table : efx_nic_reg_table) (i : Z) : io_read :=
  default (Reado 0) (row_read table i).

(** The accesses of the row loop for rows [i], [i+1], ... *)
Fixpoint rows_reads (table : efx_nic_reg_table) (todo : nat) (i pos : Z)
    : list (Z * io_read) :=
  match todo with
  | O => []
  | S todo' =>
      (pos, row_op table i) ::
      rows_reads table todo' (i + 1) (pos + Z.min (tbl_step table) 16)
  end.

(** The accesses of the second loop, from position [pos] on. *)
Fixpoint tables_reads (revision : Z) (tables : list efx_nic_reg_table)
    (pos : Z) : list (Z * io_read) :=
  match tables with
  | [] => []
  | t :: rest =>
      if tbl_applies revision t
      then rows_reads t (Z.to_nat (tbl_rows t)) 0 pos ++
           tables_reads revision rest
             (pos + tbl_rows t * Z.min (tbl_step t) 16)
      else tables_reads revision rest pos
  end.


(** Closed revision ranges [[min1, max1]] and [[min2, max2]] share no
    revision. *)
Definition ranges_disjoint (t1 t2 : efx_nic_reg_table) : Prop :=
  tbl_max_revision t1 < tbl_min_revision t2 \/
  tbl_max_revision t2 < tbl_min_revision t1.

(** Two entries of the initialiser list that carry the same table name. *)
Definition same_table_ok (e1 e2 : string * efx_nic_reg_table) : Prop :=
  e1.1 = e2.1 ->
  tbl_offset e1.2 = tbl_offset e2.2 /\ ranges_disjoint e1.2 e2.2.

(** ** Statistics (nic.c, [efx_nic_describe_stats] and after) *)

(** [struct efx_hw_stat_desc { const char *name; u16 dma_width; u16 offset; }]
    of nic.h; a [NULL] name is [None], a string is its bytes before the
    terminating NUL. *)
Record efx_hw_stat_desc := {
  name : option (list Z);
  dma_width : Z;
  offset : Z
}.

(** [ETH_GSTRING_LEN] of linux/ethtool.h. *)
Definition ETH_GSTRING_LEN : Z := 32.

(** The bytes of a string literal. *)
Definition bytes_of (s : string) : list Z :=
  map (fun c => Z.of_nat (Ascii.nat_of_ascii c)) (String.list_ascii_of_string s).

(** Bit [nr] of a bitmap of [unsigned long] words ([test_bit]); a word the
    bitmap does not have reads as 0. *)
Definition test_bit (nr : nat) (mask : list Z) : bool :=
  Z.testbit (mask !!! (nr / Z.to_nat BITS_PER_LONG)%nat)
            (Z.of_nat nr mod BITS_PER_LONG).

(** [for_each_set_bit(index, mask, size)]: the body runs for the set bits
    below [size], in ascending order.  [todo] indices are left, [index] is
    the next one; the body may fail, which ends the loop. *)
Fixpoint for_each_set_bit_from {St : Type} (mask : list Z)
    (body : nat -> St -> option St) (todo : nat) (index : nat) (s : St)
    : option St :=
  match todo with
  | O => Some s
  | S todo' =>
      if test_bit index mask then
        match body index s with
        | Some s' => for_each_set_bit_from mask body todo' (S index) s'
        | None => None
        end
      else for_each_set_bit_from mask body todo' (S index) s
  end.

Definition for_each_set_bit {St : Type} (mask : list Z) (size : nat)
    (body : nat -> St -> option St) (s : St) : option St :=
  for_each_set_bit_from mask body size 0 s.

(** [strlen]: the bytes before the first NUL. *)
Fixpoint strlen (s : list Z) : nat :=
  match s with
  | [] => O
  | c :: rest => if c =? 0 then O else S (strlen rest)
  end.

(** What [strlcpy(dest, src, size)] stores at [dest] for [size > 0]: the
    first [min(strlen(src), size - 1)] bytes of [src] and a NUL. *)
Definition strlcpy_image (src : list Z) (size : Z) : list Z :=
  take (Nat.min (strlen src) (Z.to_nat (size - 1))) src ++ [0].

(** The state of [efx_nic_describe_stats]: the counter, the distance the
    [names] pointer has advanced, and the caller's buffer ([None] for a
    [NULL] pointer). *)
Record describe_state := {
  visible : Z;
  names_pos : Z;
  names_buf : option (list Z)
}.

(** The body of the loop of [efx_nic_describe_stats].  [None] is an access
    outside [desc] or outside the names buffer. *)
Definition describe_body (desc : list efx_hw_stat_desc) (index : nat)
    (st : describe_state) : option describe_state :=
  match desc !! index with
  | None => None
  | Some d =>
      match name d with
      | None => Some st
      | Some nm =>
          match names_buf st with
          | None =>
              Some {| visible := size_t (visible st + 1);
                      names_pos := names_pos st; names_buf := None |}
          | Some m =>
              match store (names_pos st) (strlcpy_image nm ETH_GSTRING_LEN) m with
              | None => None
              | Some m' =>
                  Some {| visible := size_t (visible st + 1);
                          names_pos := names_pos st + ETH_GSTRING_LEN;
                          names_buf := Some m' |}
              end
          end
      end
  end.

(** [size_t efx_nic_describe_stats(desc, count, mask, names)]: the count
    returned and the names buffer as left. *)
Definition efx_nic_describe_stats (desc : list efx_hw_stat_desc) (count : nat)
    (mask : list Z) (names : option (list Z)) : option (Z * option (list Z)) :=
  match for_each_set_bit mask count (describe_body desc)
          {| visible := 0; names_pos := 0; names_buf := names |} with
  | Some st => Some (visible st, names_buf st)
  | None => None
  end.

(** [leN_to_cpup]: the [n] bytes at [addr], least significant first, as a
    number; [None] when they are not all inside the buffer. *)
Definition le_decode (bytes : list Z) : Z :=
  foldr (fun b acc => b mod 256 + 256 * acc) 0 bytes.

Definition le_to_cpup (n : nat) (dma_buf : list Z) (addr : Z) : option Z :=
  if (0 <=? addr) && (addr + Z.of_nat n <=? Z.of_nat (length dma_buf))
  then Some (le_decode (take n (drop (Z.to_nat addr) dma_buf)))
  else None.

(** The state of [efx_nic_update_stats]: the [stats] array and the number
    of times [WARN_ON(1)] fired. *)
Record update_state := {
  stats : list Z;
  warnings : nat
}.

(** The [switch (desc[index].dma_width)]: the value read and whether the
    [default] label warned. *)
Definition read_stat (width : Z) (dma_buf : list Z) (addr : Z)
    : option (Z * bool) :=
  if width =? 16 then v ← le_to_cpup 2 dma_buf addr; Some (v, false)
  else if width =? 32 then v ← le_to_cpup 4 dma_buf addr; Some (v, false)
  else if width =? 64 then v ← le_to_cpup 8 dma_buf addr; Some (v, false)
  else Some (0, true).   (* WARN_ON(1); val = 0; *)

(** The body of the loop of [efx_nic_update_stats].  [None] is an access
    outside [desc], [stats] or [dma_buf]. *)
Definition update_body (desc : list efx_hw_stat_desc) (dma_buf : list Z)
    (accumulate : bool) (index : nat) (st : update_state)
    : option update_state :=
  match desc !! index with
  | None => None
  | Some d =>
      if dma_width d =? 0 then Some st
      else
        match read_stat (dma_width d) dma_buf (offset d), stats st !! index with
        | Some (val, warned), Some old =>
            Some {| stats := <[index := if accumulate then u64 (old + val)
                                         else val]> (stats st);
                    warnings := if warned then S (warnings st)
                                else warnings st |}
        | _, _ => None
        end
  end.

(** [void efx_nic_update_stats(desc, count, mask, stats, dma_buf, accumulate)] *)
Definition efx_nic_update_stats (desc : list efx_hw_stat_desc) (count : nat)
    (mask : list Z) (stats0 : list Z) (dma_buf : list Z) (accumulate : bool)
    : option update_state :=
  for_each_set_bit mask count (update_body desc dma_buf accumulate)
    {| stats := stats0; warnings := 0 |}.

(** [IFF_UP] of linux/if.h. *)
Definition IFF_UP : Z := 1.

(** The members of [struct efx_nic] that [efx_nic_fix_nodesc_drop_stat]
    uses, with [net_dev->flags]. *)
Record efx_nodesc := {
  net_dev_flags : Z;
  rx_nodesc_drops_total : Z;
  rx_nodesc_drops_while_down : Z;
  rx_nodesc_drops_prev_state : bool
}.

(** [void efx_nic_fix_nodesc_drop_stat(efx, u64 *rx_nodesc_drops)]: the
    device state as left and the value left in [*rx_nodesc_drops]. *)
Definition efx_nic_fix_nodesc_drop_stat (efx : efx_nodesc)
    (rx_nodesc_drops : Z) : efx_nodesc * Z :=
  let up := negb (Z.land (net_dev_flags efx) IFF_UP =? 0) in
  let while_down :=
    (* if down, or this is the first update after coming up *)
    if negb up || negb (rx_nodesc_drops_prev_state efx)
    then u64 (rx_nodesc_drops_while_down efx +
              u64 (rx_nodesc_drops - rx_nodesc_drops_total efx))
    else rx_nodesc_drops_while_down efx in
  ({| net_dev_flags := net_dev_flags efx;
      rx_nodesc_drops_total := rx_nodesc_drops;
      rx_nodesc_drops_while_down := while_down;
      rx_nodesc_drops_prev_state := up |},
   u64 (rx_nodesc_drops - while_down)).

(** *** Reading the statistics code's results *)

(** Index [i] is enabled: below [count], with its bit set in the mask. *)
Definition enabled (count : nat) (mask : list Z) (i : nat) : bool :=
  (i <? count)%nat && test_bit i mask.

(** The widths [efx_nic_update_stats] decodes. *)
Definition width_decoded (w : Z) : bool :=
  (w =? 16) || (w =? 32) || (w =? 64).

(** The little-endian decode of [dma_width] bits at byte offset [offset]
    of [dma_buf]. *)
Definition decode_at (d : efx_hw_stat_desc) (dma_buf : list Z) : option Z :=
  le_to_cpup (Z.to_nat (dma_width d / 8)) dma_buf (offset d).

(** No enabled index makes [efx_nic_update_stats] reach outside [desc],
    [stats] or [dma_buf]: the caller's side of the contract. *)
Definition update_in_bounds (desc : list efx_hw_stat_desc) (count : nat)
    (mask : list Z) (stats0 : list Z) (dma_buf : list Z) : bool :=
  forallb (fun i =>
             negb (test_bit i mask) ||
             match desc !! i, stats0 !! i with
             | Some d, Some _ =>
                 (dma_width d =? 0) ||
                 bool_decide (is_Some (read_stat (dma_width d) dma_buf (offset d)))
             | _, _ => false
             end)
          (seq 0 count).

(** The descriptor at index [i] has a name ([desc[i].name] is not [NULL]). *)
Definition named (desc : list efx_hw_stat_desc) (i : nat) : bool :=
  match desc !! i with
  | Some d => match name d with Some _ => true | None => false end
  | None => false
  end.

(** The indices of [[lo, lo + n)] with their bit set in the mask whose
    descriptor has a name, in ascending order; and their names. *)
Definition visible_from (desc : list efx_hw_stat_desc) (mask : list Z)
    (lo n : nat) : list nat :=
  List.filter (fun i => test_bit i mask && named desc i) (seq lo n).

Definition names_from (desc : list efx_hw_stat_desc) (mask : list Z)
    (lo n : nat) : list (list Z) :=
  omap (fun i => d ← desc !! i; name d) (visible_from desc mask lo n).

(** The visible statistics: the enabled indices whose descriptor has a
    name. *)
Definition visible_indices (desc : list efx_hw_stat_desc) (count : nat)
    (mask : list Z) : list nat :=
  visible_from desc mask 0 count.

Definition visible_names (desc : list efx_hw_stat_desc) (count : nat)
    (mask : list Z) : list (list Z) :=
  names_from desc mask 0 count.

(** The first [len] bytes of slot [k] of a names buffer. *)
Definition gstring_slot (k len : nat) (m : list Z) : list Z :=
  take len (drop (Z.to_nat ETH_GSTRING_LEN * k) m).

(** What one pass of [efx_nic_update_stats] leaves in [stats[index]] for an
    enabled descriptor [d], from the value [old] it held. *)
Definition stat_value (dma_buf : list Z) (accumulate : bool)
    (d : efx_hw_stat_desc) (old : Z) : Z :=
  if dma_width d =? 0 then old
  else match read_stat (dma_width d) dma_buf (offset d) with
       | Some (val, _) => if accumulate then u64 (old + val) else val
       | None => old
       end.

(** The descriptor's width is none of 0, 16, 32, 64. *)
Definition width_unknown (d : efx_hw_stat_desc) : bool :=
  negb (dma_width d =? 0) && negb (width_decoded (dma_width d)).

(** The enabled indices of [[lo, lo + n)] whose width is unknown. *)
Definition unknown_indices (desc : list efx_hw_stat_desc) (mask : list Z)
    (lo n : nat) : list nat :=
  List.filter (fun i => test_bit i mask &&
                        match desc !! i with
                        | Some d => width_unknown d
                        | None => false
                        end)
              (seq lo n).

(** The accesses of the enabled indices of [[lo, hi)] are in bounds. *)
Definition update_ready (desc : list efx_hw_stat_desc) (mask : list Z)
    (dma_buf : list Z) (lo hi : nat) (stats0 : list Z) : Prop :=
  forall i, (lo <= i < hi)%nat -> test_bit i mask = true ->
    exists d, desc !! i = Some d /\ (i < length stats0)%nat /\
              (dma_width d <> 0 ->
               is_Some (read_stat (dma_width d) dma_buf (offset d))).

(** A descriptor table, a mask and two snapshots to evaluate the codec on:
    a 16-bit, a 32-bit and a 64-bit counter, one absent on this variant
    (width 0) and one of a width the codec does not know. *)
Definition sample_desc : list efx_hw_stat_desc := [
  {| name := Some (bytes_of "rx_good"); dma_width := 16; offset := 0 |};
  {| name := Some (bytes_of "rx_bad"); dma_width := 32; offset := 2 |};
  {| name := None; dma_width := 64; offset := 6 |};
  {| name := Some (bytes_of "tx_absent"); dma_width := 0; offset := 0 |};
  {| name := Some (bytes_of "tx_odd"); dma_width := 8; offset := 0 |};
  {| name := Some (bytes_of "tx_masked"); dma_width := 16; offset := 0 |}
].

(** Bits 0 to 4 set, bit 5 clear. *)
Definition sample_mask : list Z := [0x1f].

Definition sample_stats : list Z := [10; 20; 30; 40; 50; 60].

Definition sample_dma1 : list Z :=
  [0x34; 0x12; 0x78; 0x56; 0x34; 0x12; 1; 0; 0; 0; 0; 0; 0; 0].

Definition sample_dma2 : list Z :=
  [0x01; 0x00; 0x02; 0x00; 0x00; 0x00; 3; 0; 0; 0; 0; 0; 0; 0].

(** *** Reading the correction's results *)

(** The link state a call sees. *)
Definition link_up (efx : efx_nodesc) : bool :=
  negb (Z.land (net_dev_flags efx) IFF_UP =? 0).

(** The device with its interface flags changed, as the stack does between
    two refreshes. *)
Definition set_flags (flags : Z) (efx : efx_nodesc) : efx_nodesc :=
  {| net_dev_flags := flags;
     rx_nodesc_drops_total := rx_nodesc_drops_total efx;
     rx_nodesc_drops_while_down := rx_nodesc_drops_while_down efx;
     rx_nodesc_drops_prev_state := rx_nodesc_drops_prev_state efx |}.

(** The per-device fields as [(total, while_down, prev_state)]. *)
Definition nodesc_fields (efx : efx_nodesc) : Z * Z * bool :=
  (rx_nodesc_drops_total efx, rx_nodesc_drops_while_down efx,
   rx_nodesc_drops_prev_state efx).

(** The corrected values of three successive calls, raw 100 with the link
    up, then raw 150 and raw 170 with the link down, from a device with
    [total = 0], [while_down = 0] and the given [prev_state]; with the
    fields after each call. *)
Definition nodesc_scenario (prev_state : bool)
    : (Z * Z * Z) * list (Z * Z * bool) :=
  let efx0 := {| net_dev_flags := IFF_UP; rx_nodesc_drops_total := 0;
                 rx_nodesc_drops_while_down := 0;
                 rx_nodesc_drops_prev_state := prev_state |} in
  let '(efx1, out1) := efx_nic_fix_nodesc_drop_stat efx0 100 in
  let '(efx2, out2) := efx_nic_fix_nodesc_drop_stat (set_flags 0 efx1) 150 in
  let '(efx3, out3) := efx_nic_fix_nodesc_drop_stat (set_flags 0 efx2) 170 in
  ((out1, out2, out3),
   [nodesc_fields efx1; nodesc_fields efx2; nodesc_fields efx3]).

(** ** Interrupt binding (nic.c, [efx_nic_init_interrupt]) *)

(** [enum efx_int_mode] of net_driver.h. *)
Inductive efx_int_mode :=
  | EFX_INT_MODE_MSIX
  | EFX_INT_MODE_MSI
  | EFX_INT_MODE_LEGACY.

(** [EFX_INT_MODE_USE_MSI(efx)]: the mode is MSI-X or MSI. *)
Definition EFX_INT_MODE_USE_MSI (mode : efx_int_mode) : bool :=
  match mode with
  | EFX_INT_MODE_LEGACY => false
  | _ => true
  end.

(** [efx->interrupt_mode == EFX_INT_MODE_MSIX] *)
Definition is_msix (mode : efx_int_mode) : bool :=
  match mode with
  | EFX_INT_MODE_MSIX => true
  | _ => false
  end.

Definition ENOMEM : Z := 12.

(** [struct efx_channel]: the channel number and its interrupt. *)
Record efx_channel := {
  channel : Z;
  irq : Z
}.

(** The members of [struct efx_nic] the binding uses. *)
Record efx_irq_config := {
  interrupt_mode : efx_int_mode;
  legacy_irq : Z;
  channels : list efx_channel;
  n_rx_channels : Z
}.

(** The [dev_id] cookie of a handler: the device itself for the legacy
    interrupt, [&efx->msi_context[channel]] for a channel. *)
Inductive dev_id :=
  | DevEfx
  | DevMsiContext (channel : Z).

#[global] Instance dev_id_eq_dec : EqDecision dev_id.
Proof. solve_decision. Defined.

(** What the kernel answers: the result of [request_irq] and of
    [irq_cpu_rmap_add] for an interrupt, and whether [alloc_irq_cpu_rmap]
    succeeds. *)
Record irq_kernel := {
  request_irq_rc : Z -> Z;
  alloc_irq_cpu_rmap_ok : bool;
  irq_cpu_rmap_add_rc : Z -> Z
}.

Inductive irq_event :=
  | EvRequestIrq (irq : Z) (dev : dev_id) (rc : Z)
  | EvFreeIrq (irq : Z) (dev : dev_id)
  | EvAllocRmap (ok : bool)
  | EvRmapAdd (irq : Z) (rc : Z)
  | EvFreeRmap
  | EvNetifErr (irq : Z).

(** The interrupt state of the device: the handlers hooked, the CPU
    affinity map allocated (with the interrupts added to it), whether
    [net_dev->rx_cpu_rmap] points to it, and the calls made. *)
Record irq_state := {
  hooked : list (Z * dev_id);
  cpu_rmap : option (list Z);
  rx_cpu_rmap : bool;
  events : list irq_event
}.

Definition irq_idle : irq_state :=
  {| hooked := []; cpu_rmap := None; rx_cpu_rmap := false; events := [] |}.

Definition log_event (e : irq_event) (st : irq_state) : irq_state :=
  {| hooked := hooked st; cpu_rmap := cpu_rmap st;
     rx_cpu_rmap := rx_cpu_rmap st; events := events st ++ [e] |}.

(** [request_irq(irq, handler, flags, name, dev)] *)
Definition request_irq (k : irq_kernel) (irq : Z) (dev : dev_id)
    (st : irq_state) : Z * irq_state :=
  let rc := request_irq_rc k irq in
  (rc,
   {| hooked := if rc =? 0 then hooked st ++ [(irq, dev)] else hooked st;
      cpu_rmap := cpu_rmap st; rx_cpu_rmap := rx_cpu_rmap st;
      events := events st ++ [EvRequestIrq irq dev rc] |}).

Fixpoint unhook (h : Z * dev_id) (l : list (Z * dev_id)) : list (Z * dev_id) :=
  match l with
  | [] => []
  | x :: rest => if decide (x = h) then rest else x :: unhook h rest
  end.

(** [free_irq(irq, dev)] *)
Definition free_irq (irq : Z) (dev : dev_id) (st : irq_state) : irq_state :=
  {| hooked := unhook (irq, dev) (hooked st);
     cpu_rmap := cpu_rmap st; rx_cpu_rmap := rx_cpu_rmap st;
     events := events st ++ [EvFreeIrq irq dev] |}.

(** [irq_cpu_rmap_add(cpu_rmap, irq)] *)
Definition irq_cpu_rmap_add (k : irq_kernel) (irq : Z) (st : irq_state)
    : Z * irq_state :=
  let rc := irq_cpu_rmap_add_rc k irq in
  (rc,
   {| hooked := hooked st;
      cpu_rmap := if rc =? 0 then (fun m => m ++ [irq]) <$> cpu_rmap st
                  else cpu_rmap st;
      rx_cpu_rmap := rx_cpu_rmap st;
      events := events st ++ [EvRmapAdd irq rc] |}).

(** [free_irq_cpu_rmap(cpu_rmap)]; nothing happens for a [NULL] map. *)
Definition free_irq_cpu_rmap (st : irq_state) : irq_state :=
  match cpu_rmap st with
  | None => st
  | Some _ =>
      {| hooked := hooked st; cpu_rmap := None; rx_cpu_rmap := rx_cpu_rmap st;
         events := events st ++ [EvFreeRmap] |}
  end.

Section InitInterrupt.

(** [CONFIG_RFS_ACCEL] *)
Variable rfs_accel : bool.
Variable efx : efx_irq_config.
Variable k : irq_kernel.

(** Modelled from the spec: [efx_for_each_channel] of net_driver.h, which
    is not part of the translated sources, visits the channels of the
    device in channel order; the loops below run over [channels efx] from
    its head.

    The hook loop: the result code, [n_irqs] and the state on leaving it;
    a result other than 0 is a [goto fail2]. *)
Fixpoint hook_channels (chs : list efx_channel) (n_irqs : Z) (st : irq_state)
    : Z * Z * irq_state :=
  match chs with
  | [] => (0, n_irqs, st)
  | ch :: rest =>
      let '(rc, st1) :=
        request_irq k (irq ch) (DevMsiContext (channel ch)) st in
      if negb (rc =? 0) then (rc, n_irqs, log_event (EvNetifErr (irq ch)) st1)
      else
        let n_irqs := u32 (n_irqs + 1) in
        if rfs_accel && is_msix (interrupt_mode efx)
           && (channel ch <? n_rx_channels efx)
        then
          let '(rc, st2) := irq_cpu_rmap_add k (irq ch) st1 in
          if negb (rc =? 0) then (rc, n_irqs, st2)
          else hook_channels rest n_irqs st2
        else hook_channels rest n_irqs st1
  end.

(** The loop under [fail2]: [if (n_irqs-- == 0) break; free_irq(...)]. *)
Fixpoint unhook_channels (chs : list efx_channel) (n_irqs : Z)
    (st : irq_state) : irq_state :=
  match chs with
  | [] => st
  | ch :: rest =>
      if n_irqs =? 0 then st
      else unhook_channels rest (u32 (n_irqs - 1))
             (free_irq (irq ch) (DevMsiContext (channel ch)) st)
  end.

(** [int efx_nic_init_interrupt(struct efx_nic *efx)] *)
Definition efx_nic_init_interrupt (st : irq_state) : Z * irq_state :=
  if negb (EFX_INT_MODE_USE_MSI (interrupt_mode efx)) then
    let '(rc, st1) := request_irq k (legacy_irq efx) DevEfx st in
    if negb (rc =? 0)
    then (rc, log_event (EvNetifErr (legacy_irq efx)) st1)   (* goto fail1 *)
    else (0, st1)
  else
    let wants_rmap := rfs_accel && is_msix (interrupt_mode efx) in
    if wants_rmap && negb (alloc_irq_cpu_rmap_ok k)
    then (- ENOMEM, log_event (EvAllocRmap false) st)        (* goto fail1 *)
    else
      let st0 :=
        if wants_rmap
        then {| hooked := hooked st; cpu_rmap := Some [];
                rx_cpu_rmap := rx_cpu_rmap st;
                events := events st ++ [EvAllocRmap true] |}
        else st in
      (* Hook MSI or MSI-X interrupt *)
      let '(rc, n_irqs, st1) := hook_channels (channels efx) 0 st0 in
      if rc =? 0 then
        (0, if rfs_accel
            then {| hooked := hooked st1; cpu_rmap := cpu_rmap st1;
                    rx_cpu_rmap := bool_decide (is_Some (cpu_rmap st1));
                    events := events st1 |}
            else st1)
      else
        (* fail2 *)
        let st2 := if rfs_accel then free_irq_cpu_rmap st1 else st1 in
        (rc, unhook_channels (channels efx) n_irqs st2).

End InitInterrupt.

(** The handlers a run hooked and the handlers it released, in the order
    of the calls. *)
Definition bound_of (evs : list irq_event) : list (Z * dev_id) :=
  omap (fun e => match e with
                 | EvRequestIrq irq dev rc =>
                     if rc =? 0 then Some (irq, dev) else None
                 | _ => None
                 end) evs.

Definition released_of (evs : list irq_event) : list (Z * dev_id) :=
  omap (fun e => match e with
                 | EvFreeIrq irq dev => Some (irq, dev)
                 | _ => None
                 end) evs.

(** The map was released before the first handler was. *)
Fixpoint rmap_freed_first (evs : list irq_event) : bool :=
  match evs with
  | [] => false
  | EvFreeRmap :: _ => true
  | EvFreeIrq _ _ :: _ => false
  | _ :: rest => rmap_freed_first rest
  end.

(** A device with three channels on MSI-X and a kernel that refuses the
    third interrupt. *)
Definition sample_irq_config : efx_irq_config :=
  {| interrupt_mode := EFX_INT_MODE_MSIX; legacy_irq := 9;
     channels := [ {| channel := 0; irq := 40 |};
                   {| channel := 1; irq := 41 |};
                   {| channel := 2; irq := 42 |} ];
     n_rx_channels := 2 |}.

Definition sample_irq_kernel : irq_kernel :=
  {| request_irq_rc := fun irq => if irq =? 42 then -16 else 0;
     alloc_irq_cpu_rmap_ok := true;
     irq_cpu_rmap_add_rc := fun _ => 0 |}.

(** The handler a channel is hooked with. *)
Definition channel_hook (ch : efx_channel) : Z * dev_id :=
  (irq ch, DevMsiContext (channel ch)).

(** An event of the hook loop: a request, an addition to the map or an
    error message. *)
Definition hook_event (e : irq_event) : bool :=
  match e with
  | EvRequestIrq _ _ _ | EvRmapAdd _ _ | EvNetifErr _ => true
  | _ => false
  end.

(** The release of a channel's handler. *)
Definition free_event (ch : efx_channel) : irq_event :=
  EvFreeIrq (irq ch) (DevMsiContext (channel ch)).

(** ** PCIe link audit (nic.c, [efx_nic_check_pcie_link]) *)

(** Constants of linux/pci_regs.h. *)
Definition PCI_EXP_LNKSTA_CLS : Z := 0x000f.  (* Current Link Speed *)
Definition PCI_EXP_LNKSTA_NLW : Z := 0x03f0.  (* Negotiated Link Width *)

(** [__ffs(word)]: the index of the lowest set bit of [word]; [word] has
    one among its low [n] bits. *)
Fixpoint ffs_from (n : nat) (i : Z) (word : Z) : Z :=
  match n with
  | O => i
  | S n' => if Z.testbit word i then i else ffs_from n' (i + 1) word
  end.

Definition __ffs (word : Z) : Z := ffs_from 64 0 word.

(** [ffs(x)]: one plus the index of the lowest set bit, 0 for 0. *)
Definition ffs (x : Z) : Z := if x =? 0 then 0 else __ffs x + 1.

(** [a << n] on [unsigned]; a count of 32 or more is undefined. *)
Definition shl_unsigned (a n : Z) : option Z :=
  if (0 <=? n) && (n <? 32) then Some (u32 (Z.shiftl a n)) else None.

(** What the PCI layer answers: the offset [pci_find_capability] returns
    for [PCI_CAP_ID_EXP] (0 when the device has none), and the result code
    and the word of [pci_read_config_word] at [cap + PCI_EXP_LNKSTA]. *)
Record pci_dev := {
  pcie_cap : Z;
  lnksta_rc : Z;
  lnksta : Z
}.

Inductive pcie_warning :=
  | WarnWidth32 (full_width : Z)          (* DEBUG: width is 32 *)
  | WarnOnWidth                           (* DEBUG: WARN_ON(width == 0 || ...) *)
  | WarnOnSpeed                           (* EFX_WARN_ON_PARANOID(speed == 0 || ...) *)
  | WarnMinBandwidth (gen width speed : Z)
  | WarnFullBandwidth (full_width full_speed width speed : Z).

(** [unsigned efx_nic_check_pcie_link(efx, full_width, full_speed,
    min_bandwidth)]: the value returned and the warnings printed; [None]
    when a shift count is out of range.  [debug] is the [DEBUG] build, in
    which [EFX_WARN_ON_PARANOID] is [WARN_ON]. *)
Definition efx_nic_check_pcie_link (debug : bool) (pdev : pci_dev)
    (full_width full_speed min_bandwidth : Z)
    : option (Z * list pcie_warning) :=
  if (pcie_cap pdev =? 0) || negb (lnksta_rc pdev =? 0) then Some (0, [])
  else
    let stat := u16 (lnksta pdev) in
    let width :=
      Z.shiftr (Z.land stat PCI_EXP_LNKSTA_NLW) (__ffs PCI_EXP_LNKSTA_NLW) in
    let w1 :=
      if debug then
        if width =? 32 then [WarnWidth32 full_width]
        else if (width =? 0) || (full_width <? width) then [WarnOnWidth]
        else []
      else [] in
    let speed := Z.land stat PCI_EXP_LNKSTA_CLS in
    let w2 :=
      if debug && ((speed =? 0) || (full_speed <? speed))
      then [WarnOnSpeed] else [] in
    bandwidth ← shl_unsigned width (u32 (speed - 1));
    full_bandwidth ← shl_unsigned full_width (u32 (full_speed - 1));
    let w3 :=
      if bandwidth <? min_bandwidth
      then [WarnMinBandwidth (ffs min_bandwidth - ffs 8 + 1) width speed]
      else [] in
    let w4 :=
      if bandwidth <? full_bandwidth
      then [WarnFullBandwidth full_width full_speed width speed]
      else [] in
    Some (width, w1 ++ w2 ++ w3 ++ w4).

(** The hard-shortfall warning is among the warnings. *)
Definition warns_min_bandwidth (ws : list pcie_warning) : bool :=
  existsb (fun w => match w with WarnMinBandwidth _ _ _ => true | _ => false end)
          ws.

(** The negotiated width and speed fields of a link-status word. *)
Definition lnksta_width (stat : Z) : Z :=
  Z.shiftr (Z.land (u16 stat) PCI_EXP_LNKSTA_NLW) (__ffs PCI_EXP_LNKSTA_NLW).

Definition lnksta_speed (stat : Z) : Z :=
  Z.land (u16 stat) PCI_EXP_LNKSTA_CLS.

(** The soft-shortfall warning is among the warnings. *)
Definition warns_full_bandwidth (ws : list pcie_warning) : bool :=
  existsb (fun w => match w with WarnFullBandwidth _ _ _ _ => true | _ => false end)
          ws.

(** * Properties *)

(** ** C integer types *)

Lemma wrap_range bits v : 0 <= bits -> 0 <= wrap bits v < 2 ^ bits.
Proof. intros Hb. unfold wrap. apply Z.mod_pos_bound. by apply Z.pow_pos_nonneg. Qed.

Lemma wrap_small bits v : 0 <= v < 2 ^ bits -> wrap bits v = v.
Proof. intros Hv. unfold wrap. by apply Z.mod_small. Qed.

Lemma wrap_idemp bits v : wrap bits (wrap bits v) = wrap bits v.
Proof.
  unfold wrap. destruct (Z.eq_dec (2 ^ bits) 0) as [E|E].
  - rewrite E. by rewrite !Z.mod_0_r.
  - by rewrite Z.mod_mod.
Qed.

Lemma bitfield_range w v : 0 <= w -> 0 <= bitfield w v < 2 ^ w.
Proof. apply wrap_range. Qed.


(** ** Register dump: the length pass *)

Lemma size_t_add_l a b : size_t (size_t a + b) = size_t (a + b).
Proof. unfold size_t, wrap. by rewrite Zplus_mod_idemp_l. Qed.

Lemma size_t_add_r a b : size_t (a + size_t b) = size_t (a + b).
Proof. unfold size_t, wrap. by rewrite Zplus_mod_idemp_r. Qed.

Lemma regs_len_loop_sum revision regs a :
  regs_len_loop revision regs (size_t a) =
  size_t (a + regs_bytes revision regs).
Proof.
  revert a. induction regs as [|reg regs IH]; intros a; simpl.
  - by rewrite Z.add_0_r.
  - destruct (reg_applies revision reg).
    + rewrite size_t_add_l, IH. f_equal. lia.
    + rewrite IH. f_equal.
  Qed.

Lemma tables_len_loop_sum revision tables a :
  tables_len_loop revision tables (size_t a) =
  size_t (a + tables_bytes revision tables).
Proof.
  revert a. induction tables as [|t tables IH]; intros a; simpl.
  - by rewrite Z.add_0_r.
  - destruct (tbl_applies revision t).
    + rewrite size_t_add_r, size_t_add_l, IH. f_equal. lia.
    + rewrite IH. f_equal.
Qed.

Lemma get_regs_len_of_sum regs tables revision :
  get_regs_len_of regs tables revision =
  size_t (regs_bytes revision regs + tables_bytes revision tables).
Proof.
  unfold get_regs_len_of.
  change 0 with (size_t 0) at 1.
  by rewrite regs_len_loop_sum, tables_len_loop_sum.
Qed.

Lemma regs_bytes_bound revision regs :
  0 <= regs_bytes revision regs <= 16 * Z.of_nat (length regs).
Proof.
  induction regs as [|reg regs IH]; simpl; [lia|].
  unfold sizeof_efx_oword_t. destruct (reg_applies revision reg); lia.
Qed.

Lemma tables_bytes_bound revision tables :
  Forall tbl_fields_ok tables ->
  0 <= tables_bytes revision tables <= 2 ^ 25 * Z.of_nat (length tables).
Proof.
  induction 1 as [|t tables [Hs Hr] _ IH]; simpl; [lia|].
  destruct (tbl_applies revision t); [|lia].
  assert (0 <= tbl_rows t * Z.min (tbl_step t) 16 <= 2 ^ 21 * 16) by nia.
  lia.
Qed.
(** ** Register dump: the extraction pass *)

Section DumpFacts.

Variable dev : io_read -> Z.

Lemma length_le_bytes n v : length (le_bytes n v) = n.
Proof. revert v. induction n as [|n IH]; intros v; simpl; [done|]. by rewrite IH. Qed.

Lemma io_width_pos op : 0 < io_width op.
Proof. destruct op; simpl; unfold sizeof_efx_oword_t; lia. Qed.

Lemma length_io_data op : Z.of_nat (length (io_data dev op)) = io_width op.
Proof.
  unfold io_data. rewrite length_le_bytes.
  pose proof (io_width_pos op). lia.
Qed.

Lemma bytes_written_snoc d' d pos op :
  reads d' = reads d ++ [(pos, op)] ->
  bytes_written d' = bytes_written d + io_width op.
Proof.
  unfold bytes_written. intros ->. rewrite foldr_app. simpl.
  generalize (reads d). intros l. induction l as [|r l IH]; simpl; lia.
Qed.

Lemma delivered_snoc rs pos op :
  delivered dev (rs ++ [(pos, op)]) = delivered dev rs ++ io_data dev op.
Proof.
  unfold delivered. rewrite map_app, concat_app. simpl. by rewrite app_nil_r.
Qed.

(** A helper call whose result fits stores it at the pointer and leaves
    the invariant standing on the advanced pointer. *)
Lemma read_into_fits op d :
  dump_inv dev d ->
  buf d + io_width op <= Z.of_nat (length (mem d)) ->
  exists d',
    read_into dev op (io_width op) d = Some d' /\
    buf d' = buf d + io_width op /\
    length (mem d') = length (mem d) /\
    reads d' = reads d ++ [(buf d, op)] /\
    drop (Z.to_nat (buf d')) (mem d') = drop (Z.to_nat (buf d')) (mem d) /\
    dump_inv dev d'.
Proof.
  intros [Hpos Hpre Hcnt] Hfit.
  pose proof (length_io_data op) as Hlen.
  pose proof (io_width_pos op) as Hw.
  unfold read_into, store.
  rewrite Hlen.
  replace ((0 <=? buf d) && (buf d + io_width op <=? Z.of_nat (length (mem d))))
    with true by (symmetry; apply andb_true_iff; split; apply Z.leb_le; lia).
  eexists. split; [reflexivity|]. simpl.
  assert (Hl1 : length (take (Z.to_nat (buf d)) (mem d)) = Z.to_nat (buf d))
    by (rewrite length_take; lia).
  assert (Hl2 : (length (take (Z.to_nat (buf d)) (mem d) ++ io_data dev op)
                 = Z.to_nat (buf d + io_width op))%nat)
    by (rewrite length_app, Hl1; lia).
  assert (Hlm : length (take (Z.to_nat (buf d)) (mem d) ++ io_data dev op ++
                        drop (Z.to_nat (buf d) + length (io_data dev op)) (mem d))
                = length (mem d))
    by (rewrite !length_app, length_drop, Hl1; lia).
  split; [reflexivity|]. split; [exact Hlm|]. split; [reflexivity|].
  split.
  - rewrite app_assoc. rewrite <- Hl2 at 1. rewrite drop_app_length.
    f_equal. lia.
  - constructor; simpl.
    + rewrite Hlm. lia.
    + rewrite delivered_snoc, <- Hpre.
      rewrite app_assoc. rewrite <- Hl2 at 1. by rewrite take_app_length.
    + erewrite bytes_written_snoc by reflexivity. simpl. lia.
Qed.

Lemma drop_agree_mono (l1 l2 : list Z) (a b : Z) :
  0 <= a <= b ->
  drop (Z.to_nat a) l1 = drop (Z.to_nat a) l2 ->
  drop (Z.to_nat b) l1 = drop (Z.to_nat b) l2.
Proof.
  intros Hab H.
  replace (Z.to_nat b) with (Z.to_nat a + Z.to_nat (b - a))%nat by lia.
  by rewrite <- !drop_drop, H.
Qed.

Lemma regs_loop_fits revision regs d :
  dump_inv dev d ->
  buf d + regs_bytes revision regs <= Z.of_nat (length (mem d)) ->
  exists d',
    regs_loop dev revision regs d = Done d' /\
    buf d' = buf d + regs_bytes revision regs /\
    length (mem d') = length (mem d) /\
    reads d' = reads d ++ regs_reads revision regs (buf d) /\
    drop (Z.to_nat (buf d')) (mem d') = drop (Z.to_nat (buf d')) (mem d) /\
    dump_inv dev d'.
Proof.
  revert d. induction regs as [|reg regs IH]; intros d Hinv Hfit; simpl in *.
  - exists d. rewrite Z.add_0_r, app_nil_r. done.
  - pose proof (regs_bytes_bound revision regs) as Hb.
    destruct (reg_applies revision reg).
    + destruct (read_into_fits (Reado (reg_offset reg)) d Hinv)
        as (d1 & Hrd & Hbuf & Hlen & Hreads & Hdrop & Hinv1); [simpl; lia|].
      simpl in Hrd, Hbuf. rewrite Hrd.
      destruct (IH d1 Hinv1)
        as (d' & Hrun & Hbuf' & Hlen' & Hreads' & Hdrop' & Hinv');
        [rewrite Hbuf, Hlen; lia|].
      exists d'. rewrite Hrun, Hlen', Hreads', Hreads, Hdrop'.
      rewrite <- app_assoc. simpl.
      split; [done|]. split; [lia|]. split; [done|].
      split; [by rewrite Hbuf|]. split; [|done].
      apply (drop_agree_mono _ _ (buf d1)); [|done].
      destruct Hinv as [? _ _]. unfold sizeof_efx_oword_t in *. lia.
    + destruct (IH d Hinv)
        as (d' & Hrun & Hbuf' & Hlen' & Hreads' & Hdrop' & Hinv'); [lia|].
      exists d'. rewrite Hrun, Hbuf', Hlen', Hreads'. rewrite <- Hbuf'. done.
Qed.

Lemma row_read_step_ok table i :
  step_ok table = true ->
  row_read table i = Some (row_op table i) /\
  io_width (row_op table i) = Z.min (tbl_step table) 16.
Proof.
  unfold step_ok, row_op, row_read. intros H.
  destruct (tbl_step table =? 4) eqn:E4;
    [apply Z.eqb_eq in E4; rewrite E4; done|].
  destruct (tbl_step table =? 8) eqn:E8;
    [apply Z.eqb_eq in E8; rewrite E8; done|].
  destruct (tbl_step table =? 16) eqn:E16;
    [apply Z.eqb_eq in E16; rewrite E16; done|].
  destruct (tbl_step table =? 32) eqn:E32;
    [apply Z.eqb_eq in E32; rewrite E32; done|].
  done.
Qed.

Lemma rows_loop_fits table todo i d :
  step_ok table = true ->
  dump_inv dev d ->
  buf d + Z.of_nat todo * Z.min (tbl_step table) 16
    <= Z.of_nat (length (mem d)) ->
  exists d',
    rows_loop dev table (Z.min (tbl_step table) 16) todo i d = Done d' /\
    buf d' = buf d + Z.of_nat todo * Z.min (tbl_step table) 16 /\
    length (mem d') = length (mem d) /\
    reads d' = reads d ++ rows_reads table todo i (buf d) /\
    drop (Z.to_nat (buf d')) (mem d') = drop (Z.to_nat (buf d')) (mem d) /\
    dump_inv dev d'.
Proof.
  intros Hok. revert i d.
  induction todo as [|todo IH]; intros i d Hinv Hfit.
  - exists d. simpl. rewrite Z.add_0_r, app_nil_r. done.
  - destruct (row_read_step_ok table i Hok) as [Hrow Hw].
    assert (0 < Z.min (tbl_step table) 16)
      by (rewrite <- Hw; apply io_width_pos).
    cbn [rows_loop rows_reads]. rewrite Hrow.
    destruct (read_into_fits (row_op table i) d Hinv)
      as (d1 & Hrd & Hbuf & Hlen & Hreads & Hdrop & Hinv1); [nia|].
    rewrite Hw in Hrd, Hbuf. rewrite Hrd.
    destruct (IH (i + 1) d1 Hinv1)
      as (d' & Hrun & Hbuf' & Hlen' & Hreads' & Hdrop' & Hinv');
      [rewrite Hbuf, Hlen; nia|].
    exists d'. rewrite Hrun, Hlen', Hreads', Hreads, Hdrop'.
    rewrite <- app_assoc. simpl.
    split; [done|]. split; [nia|]. split; [done|].
    split; [by rewrite Hbuf|]. split; [|done].
    apply (drop_agree_mono _ _ (buf d1)); [|done].
    destruct Hinv as [? _ _]. nia.
Qed.

Lemma tables_loop_fits revision tables d :
  Forall tbl_fields_ok tables ->
  forallb step_ok tables = true ->
  dump_inv dev d ->
  buf d + tables_bytes revision tables <= Z.of_nat (length (mem d)) ->
  exists d',
    tables_loop dev revision tables d = Done d' /\
    buf d' = buf d + tables_bytes revision tables /\
    length (mem d') = length (mem d) /\
    reads d' = reads d ++ tables_reads revision tables (buf d) /\
    drop (Z.to_nat (buf d')) (mem d') = drop (Z.to_nat (buf d')) (mem d) /\
    dump_inv dev d'.
Proof.
  intros Hf. revert d.
  induction Hf as [|t tables [Hs Hr] Hf IH]; intros d Hok Hinv Hfit;
    simpl in *.
  - exists d. rewrite Z.add_0_r, app_nil_r. done.
  - apply andb_true_iff in Hok as [Hok Hoks].
    pose proof (tables_bytes_bound revision tables Hf) as Hb.
    destruct (tbl_applies revision t); simpl.
    + destruct (rows_loop_fits t (Z.to_nat (tbl_rows t)) 0 d Hok Hinv)
        as (d1 & Hrun1 & Hbuf1 & Hlen1 & Hreads1 & Hdrop1 & Hinv1);
        [rewrite Z2Nat.id by lia; lia|].
      rewrite Z2Nat.id in Hbuf1 by lia. rewrite Hrun1.
      destruct (IH d1 Hoks Hinv1)
        as (d' & Hrun & Hbuf' & Hlen' & Hreads' & Hdrop' & Hinv');
        [rewrite Hbuf1, Hlen1; lia|].
      exists d'. rewrite Hrun, Hlen', Hreads', Hreads1, Hdrop'.
      rewrite <- app_assoc.
      split; [done|]. split; [lia|]. split; [done|].
      split; [by rewrite Hbuf1|]. split; [|done].
      apply (drop_agree_mono _ _ (buf d1)); [|done].
      destruct Hinv as [? _ _]. nia.
    + destruct (IH d Hoks Hinv)
        as (d' & Hrun & Hbuf' & Hlen' & Hreads' & Hdrop' & Hinv'); [lia|].
      exists d'. rewrite Hrun, Hbuf', Hlen', Hreads'. rewrite <- Hbuf'. done.
Qed.

Lemma dump_inv_start buffer :
  dump_inv dev {| buf := 0; mem := buffer; reads := [] |}.
Proof. constructor; simpl; [lia|done|done]. Qed.

(** On any catalogue whose tables have a known step, the dump of a buffer
    that can hold [regs_bytes + tables_bytes] bytes runs to the end. *)
Lemma get_regs_of_fits regs tables revision buffer :
  Forall tbl_fields_ok tables ->
  forallb step_ok tables = true ->
  regs_bytes revision regs + tables_bytes revision tables
    <= Z.of_nat (length buffer) ->
  exists d,
    get_regs_of dev regs tables revision buffer = Done d /\
    buf d = regs_bytes revision regs + tables_bytes revision tables /\
    length (mem d) = length buffer /\
    reads d = regs_reads revision regs 0 ++
              tables_reads revision tables (regs_bytes revision regs) /\
    drop (Z.to_nat (buf d)) (mem d) = drop (Z.to_nat (buf d)) buffer /\
    dump_inv dev d.
Proof.
  intros Hf Hok Hfit. unfold get_regs_of.
  pose proof (tables_bytes_bound revision tables Hf) as Hb.
  pose proof (regs_bytes_bound revision regs) as Hbr.
  destruct (regs_loop_fits revision regs _ (dump_inv_start buffer))
    as (d1 & Hrun1 & Hbuf1 & Hlen1 & Hreads1 & Hdrop1 & Hinv1); [simpl; lia|].
  simpl in *. rewrite Hrun1.
  destruct (tables_loop_fits revision tables d1 Hf Hok Hinv1)
    as (d & Hrun & Hbuf & Hlen & Hreads & Hdrop & Hinv);
    [rewrite Hbuf1, Hlen1; lia|].
  exists d. rewrite Hrun, Hlen, Hreads, Hreads1, Hlen1, Hdrop.
  split; [done|]. split; [lia|]. split; [done|].
  split; [by rewrite Hbuf1|]. split; [|done].
  apply (drop_agree_mono _ _ (buf d1)); [lia|done].
Qed.

Lemma tables_bytes_app revision l1 l2 :
  tables_bytes revision (l1 ++ l2) =
  tables_bytes revision l1 + tables_bytes revision l2.
Proof.
  induction l1 as [|t l1 IH]; simpl; [done|]. rewrite IH. lia.
Qed.

Lemma tables_reads_app revision l1 l2 pos :
  tables_reads revision (l1 ++ l2) pos =
  tables_reads revision l1 pos ++
  tables_reads revision l2 (pos + tables_bytes revision l1).
Proof.
  revert pos. induction l1 as [|t l1 IH]; intros pos; simpl.
  - by rewrite Z.add_0_r.
  - destruct (tbl_applies revision t).
    + rewrite IH, <- app_assoc. do 3 f_equal. lia.
    + rewrite IH. do 2 f_equal.
Qed.

(** The row loop of a step-32 table: row [i] is the 128-bit table read at
    index [2 * i], stored 16 bytes after the row before it. *)
Lemma rows_reads_step32 table todo i pos :
  tbl_step table = 32 ->
  rows_reads table todo i pos =
  map (fun k => (pos + 16 * (k - i), ReadoTable (tbl_offset table) (2 * k)))
      (seqZ i (Z.of_nat todo)).
Proof.
  intros H32. revert i pos.
  induction todo as [|todo IH]; intros i pos; [done|].
  cbn [rows_reads]. rewrite IH.
  rewrite (seqZ_cons i (Z.of_nat (S todo))) by lia.
  replace (Z.pred (Z.of_nat (S todo))) with (Z.of_nat todo) by lia.
  replace (Z.succ i) with (i + 1) by lia.
  cbn [map]. f_equal.
  - unfold row_op, row_read. rewrite H32. simpl. f_equal. lia.
  - apply map_ext. intros k. rewrite H32. f_equal. lia.
Qed.

End DumpFacts.

(** ** Register dump: the static catalogue *)

Section CatalogueFacts.

Variable hdr : string -> Z.
Variable vmalloc : bool.

Lemma REGISTER_TABLE_DIMENSIONS_fields name offset arch min_rev max_rev step rows :
  tbl_fields_ok
    (REGISTER_TABLE_DIMENSIONS name offset arch min_rev max_rev step rows).2.
Proof. split; simpl; by apply bitfield_range. Qed.

Lemma efx_nic_reg_tables_fields :
  Forall tbl_fields_ok (efx_nic_reg_tables hdr vmalloc).
Proof.
  unfold efx_nic_reg_tables, efx_nic_reg_tables_init.
  rewrite !map_app. repeat apply Forall_app_2;
    try (destruct vmalloc);
    unfold REGISTER_TABLE_AA, REGISTER_TABLE_AZ, REGISTER_TABLE_BB,
      REGISTER_TABLE_BZ, REGISTER_TABLE_CZ, REGISTER_TABLE_DZ,
      REGISTER_TABLE_BB_CZ, REGISTER_TABLE;
    cbn [map]; repeat constructor;
    apply REGISTER_TABLE_DIMENSIONS_fields.
Qed.

Lemma length_efx_nic_regs : length (efx_nic_regs hdr) = 86%nat.
Proof. reflexivity. Qed.

Lemma length_efx_nic_reg_tables :
  (length (efx_nic_reg_tables hdr vmalloc) <= 24)%nat.
Proof.
  unfold efx_nic_reg_tables. rewrite length_map.
  unfold efx_nic_reg_tables_init. destruct vmalloc; cbn; lia.
Qed.

(** The length pass never wraps on the static catalogue: it returns the
    plain sum. *)
Lemma efx_nic_get_regs_len_sum revision :
  efx_nic_get_regs_len hdr vmalloc revision =
  regs_bytes revision (efx_nic_regs hdr) +
  tables_bytes revision (efx_nic_reg_tables hdr vmalloc).
Proof.
  unfold efx_nic_get_regs_len. rewrite get_regs_len_of_sum.
  pose proof (regs_bytes_bound revision (efx_nic_regs hdr)) as Hr.
  pose proof (tables_bytes_bound revision _ efx_nic_reg_tables_fields) as Ht.
  rewrite length_efx_nic_regs in Hr.
  pose proof length_efx_nic_reg_tables as Hl.
  apply wrap_small. lia.
Qed.

End CatalogueFacts.

(** C1.  For every revision, the byte count [efx_nic_get_regs_len] returns
    is the number of bytes [efx_nic_get_regs] writes for that revision:
    given a buffer that long (or longer) and a catalogue whose table steps
    are all 4, 8, 16 or 32, the dump runs to the end, its accesses store
    exactly that many bytes, back to back from the start of the buffer, and
    leave the pointer that far in; both passes visit the same descriptors
    in the same order, filtered by the same closed-interval test, charging
    16 bytes per applicable register and [rows * min(step, 16)] bytes per
    applicable table. *)
Theorem get_regs_len_matches_get_regs
    (hdr : string -> Z) (vmalloc : bool) (dev : io_read -> Z)
    (revision : Z) (buffer : list Z) :
  forallb step_ok (efx_nic_reg_tables hdr vmalloc) = true ->
  efx_nic_get_regs_len hdr vmalloc revision <= Z.of_nat (length buffer) ->
  let len := efx_nic_get_regs_len hdr vmalloc revision in
  len = regs_bytes revision (efx_nic_regs hdr) +
        tables_bytes revision (efx_nic_reg_tables hdr vmalloc) /\
  exists d,
    efx_nic_get_regs hdr vmalloc dev revision buffer = Done d /\
    bytes_written d = len /\
    buf d = len /\
    length (mem d) = length buffer /\
    take (Z.to_nat len) (mem d) = delivered dev (reads d) /\
    drop (Z.to_nat len) (mem d) = drop (Z.to_nat len) buffer /\
    reads d = regs_reads revision (efx_nic_regs hdr) 0 ++
              tables_reads revision (efx_nic_reg_tables hdr vmalloc)
                (regs_bytes revision (efx_nic_regs hdr)).
Proof.
  intros Hok Hfit len. subst len.
  rewrite efx_nic_get_regs_len_sum in *.
  split; [done|].
  destruct (get_regs_of_fits dev (efx_nic_regs hdr)
              (efx_nic_reg_tables hdr vmalloc) revision buffer
              (efx_nic_reg_tables_fields hdr vmalloc) Hok Hfit)
    as (d & Hrun & Hbuf & Hlen & Hreads & Hdrop & Hinv).
  exists d. unfold efx_nic_get_regs. rewrite Hrun.
  destruct Hinv as [Hpos Hpre Hcnt].
  rewrite <- Hbuf. done.
Qed.

(** C2.  For an applicable table of the static catalogue with [step = 32]
    (element [k] of [efx_nic_reg_tables]), the dump reads logical row [i],
    for every [i] in [[0, rows)], as the 128-bit indexed table read at
    physical index [2 * i] and stores it 16 bytes after row [i - 1]: the
    accesses of the dump are those of the descriptors before the table,
    then [(c + 16 * i, ReadoTable offset (2 * i))] for [i = 0 .. rows - 1],
    then those of the descriptors after it, which start at
    [c + 16 * rows]. *)
Theorem get_regs_step32_rows
    (hdr : string -> Z) (vmalloc : bool) (dev : io_read -> Z)
    (revision : Z) (buffer : list Z) (k : nat) (table : efx_nic_reg_table) :
  forallb step_ok (efx_nic_reg_tables hdr vmalloc) = true ->
  efx_nic_get_regs_len hdr vmalloc revision <= Z.of_nat (length buffer) ->
  efx_nic_reg_tables hdr vmalloc !! k = Some table ->
  tbl_applies revision table = true ->
  tbl_step table = 32 ->
  let regs := efx_nic_regs hdr in
  let before := take k (efx_nic_reg_tables hdr vmalloc) in
  let after := drop (S k) (efx_nic_reg_tables hdr vmalloc) in
  let c := regs_bytes revision regs + tables_bytes revision before in
  exists d,
    efx_nic_get_regs hdr vmalloc dev revision buffer = Done d /\
    reads d =
      (regs_reads revision regs 0 ++
       tables_reads revision before (regs_bytes revision regs)) ++
      map (fun i => (c + 16 * i, ReadoTable (tbl_offset table) (2 * i)))
          (seqZ 0 (tbl_rows table)) ++
      tables_reads revision after (c + 16 * tbl_rows table).
Proof.
  intros Hok Hfit Hk Happ H32 regs before after c.
  rewrite efx_nic_get_regs_len_sum in Hfit.
  pose proof (efx_nic_reg_tables_fields hdr vmalloc) as Hf.
  destruct (get_regs_of_fits dev regs (efx_nic_reg_tables hdr vmalloc)
              revision buffer Hf Hok Hfit)
    as (d & Hrun & _ & _ & Hreads & _).
  exists d. split; [exact Hrun|]. rewrite Hreads.
  rewrite <- (take_drop_middle _ k table Hk) at 1.
  fold before after. rewrite tables_reads_app.
  cbn [tables_reads]. rewrite Happ, <- app_assoc. f_equal. f_equal.
  assert (0 <= tbl_rows table) as Hrows.
  { rewrite Forall_lookup in Hf. destruct (Hf k table Hk) as [_ ?]. lia. }
  rewrite rows_reads_step32, Z2Nat.id, H32 by done.
  change (Z.min 32 16) with 16. subst c.
  f_equal; [|f_equal; lia].
  apply map_ext. intros i. f_equal. lia.
Qed.

Lemma get_regs_len_matches_get_regs_witness :
  let len := efx_nic_get_regs_len sample_hdr true 3 in
  len = regs_bytes 3 (efx_nic_regs sample_hdr) +
        tables_bytes 3 (efx_nic_reg_tables sample_hdr true) /\
  exists d,
    efx_nic_get_regs sample_hdr true sample_dev 3
      (replicate (Z.to_nat len) 0) = Done d /\
    bytes_written d = len /\
    buf d = len /\
    length (mem d) = length (replicate (Z.to_nat len) 0) /\
    take (Z.to_nat len) (mem d) = delivered sample_dev (reads d) /\
    drop (Z.to_nat len) (mem d)
      = drop (Z.to_nat len) (replicate (Z.to_nat len) 0) /\
    reads d = regs_reads 3 (efx_nic_regs sample_hdr) 0 ++
              tables_reads 3 (efx_nic_reg_tables sample_hdr true)
                (regs_bytes 3 (efx_nic_regs sample_hdr)).
Proof.
  apply (get_regs_len_matches_get_regs sample_hdr true sample_dev 3
           (replicate (Z.to_nat (efx_nic_get_regs_len sample_hdr true 3)) 0)).
  - vm_compute. reflexivity.
  - rewrite length_replicate. vm_compute. discriminate.
Defined.

Lemma get_regs_step32_rows_witness :
  let table := {| tbl_offset := 0xf00010; tbl_min_revision := 3;
                  tbl_max_revision := 3; tbl_step := 32; tbl_rows := 512 |} in
  let tables := efx_nic_reg_tables sample_hdr true in
  let regs := efx_nic_regs sample_hdr in
  let c := regs_bytes 3 regs + tables_bytes 3 (take 13 tables) in
  exists d,
    efx_nic_get_regs sample_hdr true sample_dev 3
      (replicate (Z.to_nat (efx_nic_get_regs_len sample_hdr true 3)) 0)
      = Done d /\
    reads d =
      (regs_reads 3 regs 0 ++
       tables_reads 3 (take 13 tables) (regs_bytes 3 regs)) ++
      map (fun i => (c + 16 * i, ReadoTable (tbl_offset table) (2 * i)))
          (seqZ 0 (tbl_rows table)) ++
      tables_reads 3 (drop 14 tables) (c + 16 * tbl_rows table).
Proof.
  apply (get_regs_step32_rows sample_hdr true sample_dev 3
           (replicate (Z.to_nat (efx_nic_get_regs_len sample_hdr true 3)) 0)
           13).
  - vm_compute. reflexivity.
  - rewrite length_replicate. vm_compute. discriminate.
  - vm_compute. reflexivity.
  - vm_compute. reflexivity.
  - reflexivity.
Defined.

(** An unknown step makes the dump stop short of the length computed for
    it: the length pass charges [rows * min(step, 16)] for any step, the
    row loop leaves the function at the first row. *)
Example get_regs_unknown_step_stops_short :
  let tables := [ {| tbl_offset := 0x100; tbl_min_revision := 1;
                     tbl_max_revision := 3; tbl_step := 5; tbl_rows := 2 |} ] in
  get_regs_len_of [] tables 2 = 10 /\
  get_regs_of sample_dev [] tables 2 (replicate 10 0)
    = Warned {| buf := 0; mem := replicate 10 0; reads := [] |}.
Proof. split; reflexivity. Qed.

(** *** Revision ranges of the static catalogue *)

Lemma ranges_disjoint_applies t1 t2 revision :
  ranges_disjoint t1 t2 ->
  ~ (tbl_applies revision t1 = true /\ tbl_applies revision t2 = true).
Proof.
  unfold ranges_disjoint, tbl_applies, applicable.
  intros Hd [H1 H2].
  apply andb_true_iff in H1 as [H1a H1b]. apply andb_true_iff in H2 as [H2a H2b].
  apply Z.geb_le in H1a, H2a. apply Z.leb_le in H1b, H2b. lia.
Qed.

Lemma ForallOrdPairs_lookup {A} (R : A -> A -> Prop) (l : list A)
    (i j : nat) (a b : A) :
  ForallOrdPairs R l -> (i < j)%nat ->
  l !! i = Some a -> l !! j = Some b -> R a b.
Proof.
  intros H. revert i j. induction H as [|x l Hx _ IH]; intros i j Hij Hi Hj.
  - done.
  - destruct j as [|j]; [lia|]. destruct i as [|i]; simpl in *.
    + inversion Hi; subst. rewrite Forall_lookup in Hx. by eapply Hx.
    + apply (IH i j); [lia|done|done].
Qed.

Section RevisionFacts.

Variable hdr : string -> Z.
Variable vmalloc : bool.

Ltac each_entry :=
  repeat apply Forall_cons_2; try apply Forall_nil_2.

Ltac expand_tables :=
  cbv [efx_nic_reg_tables efx_nic_reg_tables_init REGISTER_TABLE
       REGISTER_TABLE_AA REGISTER_TABLE_AZ REGISTER_TABLE_BB REGISTER_TABLE_BZ
       REGISTER_TABLE_CZ REGISTER_TABLE_DZ REGISTER_TABLE_BB_CZ
       REGISTER_TABLE_DIMENSIONS app map snd].

Lemma efx_nic_regs_ranges :
  Forall (fun reg => reg_min_revision reg <= reg_max_revision reg)
         (efx_nic_regs hdr).
Proof. each_entry; vm_compute; discriminate. Qed.

Lemma efx_nic_reg_tables_ranges :
  Forall (fun t => tbl_min_revision t <= tbl_max_revision t)
         (efx_nic_reg_tables hdr vmalloc).
Proof.
  destruct vmalloc; expand_tables; each_entry; vm_compute; discriminate.
Qed.

Lemma efx_nic_reg_tables_pairs :
  ForallOrdPairs same_table_ok (efx_nic_reg_tables_init hdr vmalloc).
Proof.
  destruct vmalloc; expand_tables;
    repeat (apply FOP_cons; [each_entry|]); try apply FOP_nil.
  all: unfold same_table_ok; cbn [fst snd tbl_offset];
    first [ intros Hname; discriminate Hname
          | intros _; split; [reflexivity | left; vm_compute; reflexivity] ].
Qed.

(** What [REGISTER_TABLE_BB_CZ] emits: two descriptors of one table at one
    offset and with one step, the first for revision B only, the second
    for C..Z. *)
Lemma REGISTER_TABLE_BB_CZ_shape name :
  exists tB tC,
    REGISTER_TABLE_BB_CZ hdr name = [(name, tB); (name, tC)] /\
    tbl_offset tB = tbl_offset tC /\
    tbl_step tB = tbl_step tC /\
    (tbl_min_revision tB, tbl_max_revision tB)
      = (REGISTER_REVISION_FB, REGISTER_REVISION_FB) /\
    (tbl_min_revision tC, tbl_max_revision tC)
      = (REGISTER_REVISION_FC, REGISTER_REVISION_FZ).
Proof. unfold REGISTER_TABLE_BB_CZ, REGISTER_TABLE_DIMENSIONS. eauto 10. Qed.

(** The names entered twice in the initialiser list are those of the
    [REGISTER_TABLE_BB_CZ] uses. *)
Lemma efx_nic_reg_tables_dual_names :
  let names := map fst (efx_nic_reg_tables_init hdr vmalloc) in
  filter (fun n => 1 <? Z.of_nat (length (filter (String.eqb n) names))) names
  = concat (map (fun n => [n; n])
       ["RX_DESC_PTR_TBL"; "TX_DESC_PTR_TBL"; "EVQ_PTR_TBL"; "TIMER_TBL";
        "TX_PACE_TBL"]%string).
Proof. destruct vmalloc; vm_compute; reflexivity. Qed.

End RevisionFacts.

(** C8.  Two entries of the static table catalogue that describe the same
    table (entries [i < j] of the initialiser list with the same name, as
    [REGISTER_TABLE_BB_CZ] emits for [RX_DESC_PTR_TBL], [TX_DESC_PTR_TBL],
    [EVQ_PTR_TBL], [TIMER_TBL] and [TX_PACE_TBL]) sit at the same base
    offset and have disjoint closed revision ranges, so that no revision
    makes both applicable; and every descriptor of both static catalogues
    has [min_revision <= max_revision]. *)
Theorem dual_shape_entries_disjoint
    (hdr : string -> Z) (vmalloc : bool) (i j : nat)
    (e1 e2 : string * efx_nic_reg_table) :
  (i < j)%nat ->
  efx_nic_reg_tables_init hdr vmalloc !! i = Some e1 ->
  efx_nic_reg_tables_init hdr vmalloc !! j = Some e2 ->
  e1.1 = e2.1 ->
  (tbl_offset e1.2 = tbl_offset e2.2 /\
   ranges_disjoint e1.2 e2.2 /\
   forall revision,
     ~ (tbl_applies revision e1.2 = true /\ tbl_applies revision e2.2 = true))
  /\ Forall (fun reg => reg_min_revision reg <= reg_max_revision reg)
            (efx_nic_regs hdr)
  /\ Forall (fun t => tbl_min_revision t <= tbl_max_revision t)
            (efx_nic_reg_tables hdr vmalloc).
Proof.
  intros Hij Hi Hj Hname.
  split; [|split; [apply efx_nic_regs_ranges|apply efx_nic_reg_tables_ranges]].
  destruct (ForallOrdPairs_lookup _ _ i j e1 e2
              (efx_nic_reg_tables_pairs hdr vmalloc) Hij Hi Hj Hname)
    as [Hoff Hdis].
  split; [done|]. split; [done|].
  intros revision. by apply ranges_disjoint_applies.
Qed.

Lemma dual_shape_entries_disjoint_witness :
  let tB := {| tbl_offset := 0xf40000; tbl_min_revision := 2;
               tbl_max_revision := 2; tbl_step := 16; tbl_rows := 4096 |} in
  let tC := {| tbl_offset := 0xf40000; tbl_min_revision := 3;
               tbl_max_revision := 3; tbl_step := 16; tbl_rows := 1024 |} in
  (tbl_offset tB = tbl_offset tC /\
   ranges_disjoint tB tC /\
   forall revision,
     ~ (tbl_applies revision tB = true /\ tbl_applies revision tC = true))
  /\ Forall (fun reg => reg_min_revision reg <= reg_max_revision reg)
            (efx_nic_regs sample_hdr)
  /\ Forall (fun t => tbl_min_revision t <= tbl_max_revision t)
            (efx_nic_reg_tables sample_hdr true).
Proof.
  apply (dual_shape_entries_disjoint sample_hdr true 3 4
           ("RX_DESC_PTR_TBL"%string, _) ("RX_DESC_PTR_TBL"%string, _)).
  - lia.
  - vm_compute. reflexivity.
  - vm_compute. reflexivity.
  - reflexivity.
Defined.

(** ** Statistics: the no-descriptor-drop correction *)

(** C3, as stated, fails in its example: from [prev_state = false] the
    first call is "the first update after coming up" and folds its delta of
    100 too, so the three calls pass back 0, 0, 0 and not 100, 100, 100. *)
Lemma fix_nodesc_drop_stat_scenario_counterexample :
  (nodesc_scenario false).1 = (0, 0, 0) /\
  (nodesc_scenario false).1 <> (100, 100, 100) /\
  (nodesc_scenario false).2 =
    [(100, 100, true); (150, 150, false); (170, 170, false)].
Proof. vm_compute. split; [reflexivity|]. split; [discriminate|reflexivity]. Qed.

(** C3, amended.  One call of [efx_nic_fix_nodesc_drop_stat]: when the link
    is down or [prev_state] is false the delta (raw total minus stored
    total, in [u64]) is added to [while_down], otherwise [while_down] is
    kept; the stored total and [prev_state] become the raw value and the
    link state; the value passed back is the raw total minus the new
    [while_down].  From [(prev_state = true, total = 0, while_down = 0)]
    the calls raw 100 up, raw 150 down, raw 170 down pass back 100, 100,
    100, through [(100, 0, true)], [(150, 50, false)], [(170, 70, false)];
    from [prev_state = false] they pass back 0, 0, 0: in both the value
    passed back is frozen while the link is down. *)
Theorem fix_nodesc_drop_stat_freezes_while_down :
  (forall efx raw,
     let r := efx_nic_fix_nodesc_drop_stat efx raw in
     rx_nodesc_drops_while_down r.1 =
       (if negb (link_up efx) || negb (rx_nodesc_drops_prev_state efx)
        then u64 (rx_nodesc_drops_while_down efx +
                  u64 (raw - rx_nodesc_drops_total efx))
        else rx_nodesc_drops_while_down efx) /\
     rx_nodesc_drops_total r.1 = raw /\
     rx_nodesc_drops_prev_state r.1 = link_up efx /\
     net_dev_flags r.1 = net_dev_flags efx /\
     r.2 = u64 (raw - rx_nodesc_drops_while_down r.1)) /\
  nodesc_scenario true =
    ((100, 100, 100), [(100, 0, true); (150, 50, false); (170, 70, false)]) /\
  nodesc_scenario false =
    ((0, 0, 0), [(100, 100, true); (150, 150, false); (170, 170, false)]).
Proof.
  split; [|split; vm_compute; reflexivity].
  intros efx raw. unfold efx_nic_fix_nodesc_drop_stat, link_up.
  cbn [rx_nodesc_drops_while_down rx_nodesc_drops_total
       rx_nodesc_drops_prev_state net_dev_flags fst snd].
  repeat split; reflexivity.
Qed.

(** ** Statistics: decoding a DMA snapshot *)

Section UpdateFacts.

Variable desc : list efx_hw_stat_desc.
Variable mask : list Z.
Variable dma_buf : list Z.
Variable accumulate : bool.

Lemma update_body_spec index st d old :
  desc !! index = Some d ->
  stats st !! index = Some old ->
  (dma_width d <> 0 -> is_Some (read_stat (dma_width d) dma_buf (offset d))) ->
  exists st',
    update_body desc dma_buf accumulate index st = Some st' /\
    stats st' = <[index := stat_value dma_buf accumulate d old]> (stats st) /\
    warnings st' = (warnings st + if width_unknown d then 1 else 0)%nat.
Proof.
  intros Hd Hold Hrd. unfold update_body, stat_value, width_unknown.
  rewrite Hd, Hold.
  destruct (dma_width d =? 0) eqn:E0.
  - exists st. rewrite list_insert_id by done. simpl. split; [done|].
    split; [done|lia].
  - apply Z.eqb_neq in E0. destruct (Hrd E0) as [[val warned] Hval].
    rewrite Hval. eexists. split; [reflexivity|]. simpl. split; [done|].
    revert Hval. unfold read_stat, width_decoded.
    destruct (dma_width d =? 16); [|destruct (dma_width d =? 32);
      [|destruct (dma_width d =? 64)]]; simpl;
      try (destruct (le_to_cpup _ _ _); simpl; intros [= <- <-]; lia).
    intros [= <- <-]. lia.
Qed.

Lemma update_loop_spec todo : forall index st,
  update_ready desc mask dma_buf index (index + todo) (stats st) ->
  exists st',
    for_each_set_bit_from mask (update_body desc dma_buf accumulate)
      todo index st = Some st' /\
    length (stats st') = length (stats st) /\
    (forall i d old,
       (index <= i < index + todo)%nat -> test_bit i mask = true ->
       desc !! i = Some d -> stats st !! i = Some old ->
       stats st' !! i = Some (stat_value dma_buf accumulate d old)) /\
    (forall i,
       ~ ((index <= i < index + todo)%nat /\ test_bit i mask = true) ->
       stats st' !! i = stats st !! i) /\
    warnings st' =
      (warnings st + length (unknown_indices desc mask index todo))%nat.
Proof.
  induction todo as [|todo IH]; intros index st Hready.
  - exists st. simpl. split; [done|]. split; [done|]. split; [|split].
    + intros i d old Hi. lia.
    + done.
    + lia.
  - cbn [for_each_set_bit_from]. unfold unknown_indices. cbn [seq List.filter].
    fold (unknown_indices desc mask (S index) todo).
    destruct (test_bit index mask) eqn:Hbit.
    + destruct (Hready index) as (d & Hd & Hlt & Hrd); [lia|done|].
      destruct (lookup_lt_is_Some_2 _ _ Hlt) as [old Hold].
      destruct (update_body_spec index st d old Hd Hold Hrd)
        as (st1 & Hrun1 & Hst1 & Hw1).
      rewrite Hrun1, Hd. cbn [andb].
      assert (Hlen1 : length (stats st1) = length (stats st))
        by (rewrite Hst1; apply length_insert).
      destruct (IH (S index) st1) as (st' & Hrun & Hlen & Hin & Hout & Hw).
      { intros i Hi Hb. destruct (Hready i) as (di & Hdi & Hli & Hri);
          [lia|done|]. exists di. rewrite Hlen1. done. }
      exists st'. split; [done|]. split; [lia|]. split; [|split].
      * intros i di oldi Hi Hb Hdi Holdi.
        destruct (decide (i = index)) as [->|Hne].
        -- rewrite Hout by lia. rewrite Hst1, list_lookup_insert_eq by done.
           congruence.
        -- apply Hin; [lia|done|done|].
           rewrite Hst1, list_lookup_insert_ne by done. done.
      * intros i Hi. assert (i <> index) by (intros ->; apply Hi; split; [lia|done]).
        rewrite Hout by (intros [? ?]; apply Hi; split; [lia|done]).
        rewrite Hst1, list_lookup_insert_ne by done. done.
      * rewrite Hw, Hw1. destruct (width_unknown d); simpl; lia.
    + cbn [andb].
      destruct (IH (S index) st) as (st' & Hrun & Hlen & Hin & Hout & Hw).
      { intros i Hi Hb. apply Hready; [lia|done]. }
      exists st'. split; [done|]. split; [done|]. split; [|split].
      * intros i di oldi Hi Hb Hdi Holdi.
        destruct (decide (i = index)) as [->|Hne]; [congruence|].
        apply Hin; [lia|done|done|done].
      * intros i Hi. destruct (decide (i = index)) as [->|Hne].
        -- apply Hout. lia.
        -- apply Hout. intros [? ?]. apply Hi. split; [lia|done].
      * done.
Qed.

Lemma update_in_bounds_ready count stats0 :
  update_in_bounds desc count mask stats0 dma_buf = true ->
  update_ready desc mask dma_buf 0 count stats0.
Proof.
  unfold update_in_bounds, update_ready. rewrite forallb_forall.
  intros H i Hi Hbit. specialize (H i). rewrite Hbit in H. simpl in H.
  assert (Hin : In i (seq 0 count)) by (apply in_seq; lia).
  specialize (H Hin).
  destruct (desc !! i) as [d|]; [|done].
  destruct (stats0 !! i) as [old|] eqn:Hold; [|done].
  exists d. split; [done|]. split; [by eapply lookup_lt_Some|].
  intros Hw. apply orb_true_iff in H as [H|H].
  - apply Z.eqb_eq in H. done.
  - by apply bool_decide_eq_true in H.
Qed.

Lemma update_ready_length count stats0 stats1 :
  length stats1 = length stats0 ->
  update_ready desc mask dma_buf 0 count stats0 ->
  update_ready desc mask dma_buf 0 count stats1.
Proof.
  intros Hlen Hready i Hi Hbit.
  destruct (Hready i Hi Hbit) as (d & ? & ? & ?). exists d. rewrite Hlen. done.
Qed.

Lemma read_stat_decoded d :
  width_decoded (dma_width d) = true ->
  read_stat (dma_width d) dma_buf (offset d) =
  (v ← decode_at d dma_buf; Some (v, false)).
Proof.
  unfold width_decoded, read_stat, decode_at. intros H.
  destruct (dma_width d =? 16) eqn:E16;
    [apply Z.eqb_eq in E16; by rewrite E16|].
  destruct (dma_width d =? 32) eqn:E32;
    [apply Z.eqb_eq in E32; by rewrite E32|].
  destruct (dma_width d =? 64) eqn:E64;
    [apply Z.eqb_eq in E64; by rewrite E64|].
  done.
Qed.

Lemma width_decoded_nonzero d :
  width_decoded (dma_width d) = true -> dma_width d <> 0.
Proof.
  unfold width_decoded. intros H E. rewrite E in H. done.
Qed.

(** An enabled index of a decoded width: the snapshot holds its field, and
    a pass leaves the decode, or the old value plus the decode, in
    [stats]. *)
Lemma stat_value_decoded count stats0 i d old :
  update_ready desc mask dma_buf 0 count stats0 ->
  enabled count mask i = true ->
  desc !! i = Some d ->
  width_decoded (dma_width d) = true ->
  exists v,
    decode_at d dma_buf = Some v /\
    stat_value dma_buf accumulate d old =
      if accumulate then u64 (old + v) else v.
Proof.
  intros Hready Hen Hd Hw.
  apply andb_true_iff in Hen as [Hlt Hbit]. apply Nat.ltb_lt in Hlt.
  destruct (Hready i) as (d' & Hd' & _ & Hrd); [lia|done|].
  assert (d' = d) as -> by congruence.
  pose proof (width_decoded_nonzero d Hw) as Hnz.
  destruct (Hrd Hnz) as [r Hr].
  unfold stat_value. apply Z.eqb_neq in Hnz. rewrite Hnz.
  rewrite read_stat_decoded in * by done.
  destruct (decode_at d dma_buf) as [v|]; [|done].
  exists v. done.
Qed.

Lemma efx_nic_update_stats_spec count stats0 :
  update_ready desc mask dma_buf 0 count stats0 ->
  exists st',
    efx_nic_update_stats desc count mask stats0 dma_buf accumulate = Some st' /\
    length (stats st') = length stats0 /\
    (forall i d old,
       enabled count mask i = true ->
       desc !! i = Some d -> stats0 !! i = Some old ->
       stats st' !! i = Some (stat_value dma_buf accumulate d old)) /\
    (forall i, enabled count mask i = false -> stats st' !! i = stats0 !! i) /\
    warnings st' = length (unknown_indices desc mask 0 count).
Proof.
  intros Hready. unfold efx_nic_update_stats, for_each_set_bit.
  destruct (update_loop_spec count 0 {| stats := stats0; warnings := 0 |})
    as (st' & Hrun & Hlen & Hin & Hout & Hw); [done|].
  exists st'. simpl in *. split; [done|]. split; [done|]. split; [|split].
  - intros i d old Hen. apply andb_true_iff in Hen as [Hlt Hbit].
    apply Nat.ltb_lt in Hlt. apply Hin; [lia|done].
  - intros i Hen. apply Hout. intros [Hi Hbit].
    unfold enabled in Hen. rewrite Hbit, andb_true_r in Hen.
    apply Nat.ltb_ge in Hen. lia.
  - done.
Qed.

(** Whatever the descriptors and the snapshot hold, a body that returns
    has written at most [stats[index]], and not even that for width 0. *)
Lemma update_body_frame index st st' :
  update_body desc dma_buf accumulate index st = Some st' ->
  length (stats st') = length (stats st) /\
  (forall i, i <> index -> stats st' !! i = stats st !! i) /\
  (forall d, desc !! index = Some d -> dma_width d = 0 -> st' = st).
Proof.
  unfold update_body. destruct (desc !! index) as [d|]; [|done].
  destruct (dma_width d =? 0) eqn:E0.
  - intros [= <-]. done.
  - destruct (read_stat _ _ _) as [[val warned]|]; [|done].
    destruct (stats st !! index) as [old|]; [|done].
    intros [= <-]. cbn [stats]. split; [apply length_insert|]. split.
    + intros i Hi. by apply list_lookup_insert_ne.
    + intros d' [= <-] Hz. rewrite Hz in E0. done.
Qed.

Lemma update_loop_frame todo : forall index st st',
  for_each_set_bit_from mask (update_body desc dma_buf accumulate)
    todo index st = Some st' ->
  length (stats st') = length (stats st) /\
  (forall i,
     ~ ((index <= i < index + todo)%nat /\ test_bit i mask = true) ->
     stats st' !! i = stats st !! i) /\
  (forall i d, desc !! i = Some d -> dma_width d = 0 ->
               stats st' !! i = stats st !! i).
Proof.
  induction todo as [|todo IH]; intros index st st'.
  - intros [= <-]. done.
  - cbn [for_each_set_bit_from].
    destruct (test_bit index mask) eqn:Hbit.
    + destruct (update_body desc dma_buf accumulate index st) as [st1|] eqn:Hb;
        [|done].
      intros Hrun. apply IH in Hrun as (Hlen & Hout & Hzero).
      apply update_body_frame in Hb as (Hlen1 & Hout1 & Hzero1).
      split; [lia|]. split.
      * intros i Hi.
        rewrite Hout by (intros [? ?]; apply Hi; split; [lia|done]).
        apply Hout1. intros ->. apply Hi. split; [lia|done].
      * intros i d Hd Hz. rewrite (Hzero i d Hd Hz).
        destruct (decide (i = index)) as [->|Hne]; [|by apply Hout1].
        by rewrite (Hzero1 d Hd Hz).
    + intros Hrun. apply IH in Hrun as (Hlen & Hout & Hzero).
      split; [done|]. split; [|done].
      intros i Hi. apply Hout. intros [? ?]. apply Hi. split; [|done].
      destruct (decide (i = index)) as [->|]; [congruence|lia].
Qed.

End UpdateFacts.

Lemma u64_add_l a b : u64 (u64 a + b) = u64 (a + b).
Proof. unfold u64, wrap. by rewrite Zplus_mod_idemp_l. Qed.

(** C7.  For every enabled index [i] whose width is 16, 32 or 64, a pass
    with [accumulate = false] sets [stats[i]] to the little-endian decode
    of [dma_width] bits at byte offset [offset] of the snapshot, a pass
    with [accumulate = true] adds the decode to [stats[i]] (in [u64]), and
    two accumulating passes over two snapshots leave the old value plus
    both decodes; an enabled index of width 0 keeps its value. *)
Theorem update_stats_decodes_enabled
    (desc : list efx_hw_stat_desc) (count : nat) (mask : list Z)
    (stats0 dma1 dma2 : list Z) :
  update_in_bounds desc count mask stats0 dma1 = true ->
  update_in_bounds desc count mask stats0 dma2 = true ->
  exists set1 acc1 acc2,
    efx_nic_update_stats desc count mask stats0 dma1 false = Some set1 /\
    efx_nic_update_stats desc count mask stats0 dma1 true = Some acc1 /\
    efx_nic_update_stats desc count mask (stats acc1) dma2 true = Some acc2 /\
    forall i d old,
      enabled count mask i = true ->
      desc !! i = Some d -> stats0 !! i = Some old ->
      (width_decoded (dma_width d) = true ->
       exists v1 v2,
         decode_at d dma1 = Some v1 /\ decode_at d dma2 = Some v2 /\
         stats set1 !! i = Some v1 /\
         stats acc1 !! i = Some (u64 (old + v1)) /\
         stats acc2 !! i = Some (u64 (old + v1 + v2))) /\
      (dma_width d = 0 ->
       stats set1 !! i = Some old /\ stats acc1 !! i = Some old /\
       stats acc2 !! i = Some old).
Proof.
  intros Hb1 Hb2.
  apply update_in_bounds_ready in Hb1, Hb2.
  destruct (efx_nic_update_stats_spec desc mask dma1 false count stats0 Hb1)
    as (set1 & Hrun0 & _ & Hin0 & _).
  destruct (efx_nic_update_stats_spec desc mask dma1 true count stats0 Hb1)
    as (acc1 & Hrun1 & Hlen1 & Hin1 & _).
  pose proof (update_ready_length desc mask dma2 count stats0 (stats acc1)
                Hlen1 Hb2) as Hb2'.
  destruct (efx_nic_update_stats_spec desc mask dma2 true count (stats acc1) Hb2')
    as (acc2 & Hrun2 & _ & Hin2 & _).
  exists set1, acc1, acc2. split; [done|]. split; [done|]. split; [done|].
  intros i d old Hen Hd Hold.
  pose proof (Hin0 i d old Hen Hd Hold) as H0.
  pose proof (Hin1 i d old Hen Hd Hold) as H1.
  pose proof (Hin2 i d _ Hen Hd H1) as H2.
  split.
  - intros Hw.
    destruct (stat_value_decoded desc mask dma1 false count stats0 i d old
                Hb1 Hen Hd Hw) as (v1 & Hv1 & E0).
    destruct (stat_value_decoded desc mask dma1 true count stats0 i d old
                Hb1 Hen Hd Hw) as (v1' & Hv1' & E1).
    destruct (stat_value_decoded desc mask dma2 true count stats0 i d
                (stat_value dma1 true d old) Hb2 Hen Hd Hw)
      as (v2 & Hv2 & E2).
    assert (v1' = v1) as -> by congruence.
    exists v1, v2. rewrite H0, H1, H2, E2, E1, E0, u64_add_l. done.
  - intros Hz. rewrite H0, H1, H2. unfold stat_value. rewrite Hz. done.
Qed.

Lemma update_stats_decodes_enabled_witness :
  exists set1 acc1 acc2,
    efx_nic_update_stats sample_desc 6 sample_mask sample_stats sample_dma1
      false = Some set1 /\
    efx_nic_update_stats sample_desc 6 sample_mask sample_stats sample_dma1
      true = Some acc1 /\
    efx_nic_update_stats sample_desc 6 sample_mask (stats acc1) sample_dma2
      true = Some acc2 /\
    forall i d old,
      enabled 6 sample_mask i = true ->
      sample_desc !! i = Some d -> sample_stats !! i = Some old ->
      (width_decoded (dma_width d) = true ->
       exists v1 v2,
         decode_at d sample_dma1 = Some v1 /\
         decode_at d sample_dma2 = Some v2 /\
         stats set1 !! i = Some v1 /\
         stats acc1 !! i = Some (u64 (old + v1)) /\
         stats acc2 !! i = Some (u64 (old + v1 + v2))) /\
      (dma_width d = 0 ->
       stats set1 !! i = Some old /\ stats acc1 !! i = Some old /\
       stats acc2 !! i = Some old).
Proof.
  apply (update_stats_decodes_enabled sample_desc 6 sample_mask sample_stats
           sample_dma1 sample_dma2); vm_compute; reflexivity.
Defined.

(** The sample snapshot decoded: 0x1234, 0x12345678 and 1 are stored,
    the width-0 and the masked counters keep their values, the counter of
    unknown width is set to 0 with one warning. *)
Example update_stats_sample :
  efx_nic_update_stats sample_desc 6 sample_mask sample_stats sample_dma1 false
  = Some {| stats := [0x1234; 0x12345678; 1; 40; 0; 60]; warnings := 1 |} /\
  efx_nic_update_stats sample_desc 6 sample_mask sample_stats sample_dma1 true
  = Some {| stats := [10 + 0x1234; 20 + 0x12345678; 31; 40; 50; 60];
            warnings := 1 |}.
Proof. split; vm_compute; reflexivity. Qed.

(** C10.  A pass of [efx_nic_update_stats] leaves [stats[i]] as it was for
    every index [i] whose bit is not set in the mask (or that is not below
    [count]), whatever the descriptors and the snapshot hold, and for every
    index of width 0; the array keeps its length.  This holds of every pass
    that returns, and a pass whose accesses are in bounds returns. *)
Theorem update_stats_frame
    (desc : list efx_hw_stat_desc) (count : nat) (mask : list Z)
    (stats0 dma_buf : list Z) (accumulate : bool) :
  (forall st',
     efx_nic_update_stats desc count mask stats0 dma_buf accumulate = Some st' ->
     length (stats st') = length stats0 /\
     (forall i, enabled count mask i = false ->
                stats st' !! i = stats0 !! i) /\
     (forall i d, desc !! i = Some d -> dma_width d = 0 ->
                  stats st' !! i = stats0 !! i)) /\
  (update_in_bounds desc count mask stats0 dma_buf = true ->
   exists st',
     efx_nic_update_stats desc count mask stats0 dma_buf accumulate = Some st').
Proof.
  split.
  - intros st' Hrun. unfold efx_nic_update_stats, for_each_set_bit in Hrun.
    apply update_loop_frame in Hrun as (Hlen & Hout & Hzero).
    cbn [stats] in *. split; [done|]. split; [|done].
    intros i Hen. apply Hout. intros [Hi Hbit].
    unfold enabled in Hen. rewrite Hbit, andb_true_r in Hen.
    apply Nat.ltb_ge in Hen. lia.
  - intros Hb. apply update_in_bounds_ready in Hb.
    destruct (efx_nic_update_stats_spec desc mask dma_buf accumulate count
                stats0 Hb) as (st' & Hrun & _).
    by exists st'.
Qed.

(** On the sample, the masked counter (index 5) and the width-0 counter
    (index 3) keep their values. *)
Example update_stats_frame_sample :
  exists st',
    efx_nic_update_stats sample_desc 6 sample_mask sample_stats sample_dma1
      false = Some st' /\
    enabled 6 sample_mask 5 = false /\
    stats st' !! 5%nat = sample_stats !! 5%nat /\
    stats st' !! 3%nat = sample_stats !! 3%nat.
Proof. eexists. split; [vm_compute; reflexivity|]. repeat split. Qed.

(** C4, as stated, fails: with an enabled descriptor of width 8 the pass
    is not abandoned.  It warns once, stores 0 over the 5 in [stats[0]],
    and goes on to decode index 1. *)
Lemma update_stats_unknown_width_counterexample :
  efx_nic_update_stats
    [ {| name := None; dma_width := 8; offset := 0 |};
      {| name := None; dma_width := 16; offset := 0 |} ]
    2 [3] [5; 5] [7; 0] false
  = Some {| stats := [0; 7]; warnings := 1 |}.
Proof. vm_compute. reflexivity. Qed.

(** C4, amended.  An enabled descriptor whose width is none of 0, 16, 32,
    64 makes [efx_nic_update_stats] warn ([WARN_ON(1)], once per such
    index) and take 0 as the value: the pass runs to the end, and
    [stats[index]] is set to 0 when [accumulate] is false and has 0 added
    to it when [accumulate] is true. *)
Theorem update_stats_unknown_width_warns
    (desc : list efx_hw_stat_desc) (count : nat) (mask : list Z)
    (stats0 dma_buf : list Z) (accumulate : bool) :
  update_in_bounds desc count mask stats0 dma_buf = true ->
  exists st',
    efx_nic_update_stats desc count mask stats0 dma_buf accumulate = Some st' /\
    warnings st' = length (unknown_indices desc mask 0 count) /\
    forall i d old,
      enabled count mask i = true ->
      desc !! i = Some d -> stats0 !! i = Some old ->
      width_unknown d = true ->
      In i (unknown_indices desc mask 0 count) /\
      stats st' !! i = Some (if accumulate then u64 (old + 0) else 0).
Proof.
  intros Hb. apply update_in_bounds_ready in Hb.
  destruct (efx_nic_update_stats_spec desc mask dma_buf accumulate count
              stats0 Hb) as (st' & Hrun & _ & Hin & _ & Hw).
  exists st'. split; [done|]. split; [done|].
  intros i d old Hen Hd Hold Hu. split.
  - apply andb_true_iff in Hen as [Hlt Hbit]. apply Nat.ltb_lt in Hlt.
    unfold unknown_indices. apply filter_In. split; [apply in_seq; lia|].
    by rewrite Hbit, Hd.
  - rewrite (Hin i d old Hen Hd Hold). f_equal.
    unfold width_unknown, width_decoded in Hu.
    apply andb_true_iff in Hu as [Hnz Hnd].
    apply negb_true_iff in Hnz, Hnd.
    apply orb_false_iff in Hnd as [Hnd H64].
    apply orb_false_iff in Hnd as [H16 H32].
    unfold stat_value, read_stat. by rewrite Hnz, H16, H32, H64.
Qed.

Lemma update_stats_unknown_width_warns_witness :
  exists st',
    efx_nic_update_stats sample_desc 6 sample_mask sample_stats sample_dma1
      true = Some st' /\
    warnings st' = length (unknown_indices sample_desc sample_mask 0 6) /\
    forall i d old,
      enabled 6 sample_mask i = true ->
      sample_desc !! i = Some d -> sample_stats !! i = Some old ->
      width_unknown d = true ->
      In i (unknown_indices sample_desc sample_mask 0 6) /\
      stats st' !! i = Some (if true then u64 (old + 0) else 0).
Proof.
  apply (update_stats_unknown_width_warns sample_desc 6 sample_mask
           sample_stats sample_dma1 true).
  vm_compute. reflexivity.
Defined.

(** ** Statistics: describing the visible counters *)

Lemma store_fits (p : nat) (bs m : list Z) :
  (p + length bs <= length m)%nat ->
  store (Z.of_nat p) bs m = Some (take p m ++ bs ++ drop (p + length bs) m).
Proof.
  intros H. unfold store.
  replace ((0 <=? Z.of_nat p) &&
           (Z.of_nat p + Z.of_nat (length bs) <=? Z.of_nat (length m)))
    with true by (symmetry; apply andb_true_iff; split; apply Z.leb_le; lia).
  by rewrite Nat2Z.id.
Qed.

Lemma take_agree_le (l1 l2 : list Z) (a b : nat) :
  (a <= b)%nat -> take b l1 = take b l2 -> take a l1 = take a l2.
Proof.
  intros Hab H. rewrite <- (Nat.min_l a b Hab), <- !take_take. by rewrite H.
Qed.

Lemma drop_agree_ge (l1 l2 : list Z) (a b : nat) :
  (a <= b)%nat -> drop a l1 = drop a l2 -> drop b l1 = drop b l2.
Proof.
  intros Hab H. replace b with (a + (b - a))%nat by lia.
  by rewrite <- !drop_drop, H.
Qed.

Lemma strlen_le s : (strlen s <= length s)%nat.
Proof.
  induction s as [|c s IH]; simpl; [lia|]. destruct (c =? 0); lia.
Qed.

Lemma length_strlcpy_image nm :
  (0 < length (strlcpy_image nm ETH_GSTRING_LEN)
     <= Z.to_nat ETH_GSTRING_LEN)%nat.
Proof.
  unfold strlcpy_image. rewrite length_app, length_take. simpl.
  change (Z.to_nat (ETH_GSTRING_LEN - 1)) with 31%nat.
  change (Z.to_nat ETH_GSTRING_LEN) with 32%nat. lia.
Qed.

(** A name that is a C string shorter than the slot is copied whole. *)
Lemma strlcpy_image_fits nm :
  strlen nm = length nm -> Z.of_nat (length nm) < ETH_GSTRING_LEN ->
  strlcpy_image nm ETH_GSTRING_LEN = nm ++ [0].
Proof.
  intros Hs Hl. unfold strlcpy_image. rewrite Hs. f_equal.
  apply take_ge. unfold ETH_GSTRING_LEN in *. lia.
Qed.

Section DescribeFacts.

Variable desc : list efx_hw_stat_desc.
Variable mask : list Z.

Lemma visible_from_S index todo :
  visible_from desc mask index (S todo) =
  (if test_bit index mask && named desc index then [index] else []) ++
  visible_from desc mask (S index) todo.
Proof.
  unfold visible_from. cbn [seq List.filter].
  by destruct (test_bit index mask && named desc index).
Qed.

Lemma names_from_S index todo :
  names_from desc mask index (S todo) =
  (if test_bit index mask && named desc index
   then match desc !! index ≫= name with Some nm => [nm] | None => [] end
   else []) ++
  names_from desc mask (S index) todo.
Proof.
  unfold names_from. rewrite visible_from_S.
  destruct (test_bit index mask && named desc index); [|done].
  simpl. by destruct (desc !! index ≫= name).
Qed.

Lemma length_names_from index todo :
  length (names_from desc mask index todo) =
  length (visible_from desc mask index todo).
Proof.
  unfold names_from. revert index.
  induction todo as [|todo IH]; intros index; [done|].
  rewrite visible_from_S.
  destruct (test_bit index mask && named desc index) eqn:E; simpl; [|apply IH].
  apply andb_true_iff in E as [_ E]. unfold named in E.
  destruct (desc !! index) as [d|]; [|done]. simpl.
  destruct (name d); [|done]. simpl. by rewrite IH.
Qed.

(** The loop with a [NULL] names pointer only counts. *)
Lemma describe_loop_count todo : forall index v pos,
  (index + todo <= length desc)%nat ->
  for_each_set_bit_from mask (describe_body desc) todo index
    {| visible := size_t v; names_pos := pos; names_buf := None |}
  = Some {| visible :=
              size_t (v + Z.of_nat (length (visible_from desc mask index todo)));
            names_pos := pos; names_buf := None |}.
Proof.
  induction todo as [|todo IH]; intros index v pos Hlen.
  - simpl. by rewrite Z.add_0_r.
  - cbn [for_each_set_bit_from]. rewrite visible_from_S.
    destruct (lookup_lt_is_Some_2 desc index) as [d Hd]; [lia|].
    unfold describe_body at 1, named. rewrite Hd.
    destruct (test_bit index mask); cbn [andb].
    + destruct (name d); cbn [names_buf visible names_pos].
      * rewrite size_t_add_l, IH by lia. do 3 f_equal.
        rewrite length_app. cbn [length]. lia.
      * rewrite IH by lia. done.
    + rewrite IH by lia. done.
Qed.

(** The loop with a names buffer: every visible index fills the next slot
    with its name as [strlcpy] copies it, and nothing else is written. *)
Lemma describe_loop_names todo : forall index v p m,
  (index + todo <= length desc)%nat ->
  (p + 32 * length (visible_from desc mask index todo) <= length m)%nat ->
  let n := length (visible_from desc mask index todo) in
  exists m',
    for_each_set_bit_from mask (describe_body desc) todo index
      {| visible := size_t v; names_pos := Z.of_nat p; names_buf := Some m |}
    = Some {| visible := size_t (v + Z.of_nat n);
              names_pos := Z.of_nat (p + 32 * n); names_buf := Some m' |} /\
    length m' = length m /\
    take p m' = take p m /\
    drop (p + 32 * n) m' = drop (p + 32 * n) m /\
    forall k nm,
      names_from desc mask index todo !! k = Some nm ->
      take (length (strlcpy_image nm ETH_GSTRING_LEN)) (drop (p + 32 * k) m')
      = strlcpy_image nm ETH_GSTRING_LEN.
Proof.
  induction todo as [|todo IH]; intros index v p m Hlen Hfit n.
  - exists m. subst n. simpl. rewrite Z.add_0_r, Nat.add_0_r. done.
  - subst n. cbn [for_each_set_bit_from].
    rewrite names_from_S, visible_from_S in *.
    destruct (lookup_lt_is_Some_2 desc index) as [d Hd]; [lia|].
    unfold named in *. unfold describe_body at 1. rewrite Hd in *.
    cbn [mbind option_bind] in *.
    destruct (test_bit index mask); cbn [andb] in *;
      [destruct (name d) as [nm|] eqn:Hnm|]; cbn [app length] in *.
    + cbn [names_buf visible names_pos].
      pose proof (length_strlcpy_image nm) as Himg.
      change (Z.to_nat ETH_GSTRING_LEN) with 32%nat in Himg.
      set (img := strlcpy_image nm ETH_GSTRING_LEN) in *.
      rewrite store_fits by lia.
      set (m1 := take p m ++ img ++ drop (p + length img) m).
      assert (Hlen1 : length m1 = length m).
      { unfold m1. rewrite !length_app, length_take, length_drop. lia. }
      assert (Htake1 : take (p + length img) m1 = take p m ++ img).
      { unfold m1. rewrite app_assoc. apply take_app_length'.
        rewrite length_app, length_take. lia. }
      assert (Hdrop1 : drop (p + length img) m1 = drop (p + length img) m).
      { unfold m1. rewrite app_assoc. apply drop_app_length'.
        rewrite length_app, length_take. lia. }
      rewrite size_t_add_l.
      replace (Z.of_nat p + ETH_GSTRING_LEN) with (Z.of_nat (p + 32))
        by (unfold ETH_GSTRING_LEN; lia).
      destruct (IH (S index) (v + 1) (p + 32)%nat m1)
        as (m' & Hrun & Hlen' & Htake & Hdrop & Hslots); [lia|lia|].
      exists m'. rewrite Hrun. split; [|split; [|split; [|split]]].
      * do 2 f_equal; [f_equal|f_equal]; lia.
      * lia.
      * rewrite (take_agree_le m' m1 p (p + 32)) by (done || lia).
        unfold m1. apply take_app_length'. rewrite length_take. lia.
      * replace (p + 32 * S (length (visible_from desc mask (S index) todo)))%nat
          with (p + 32 + 32 * length (visible_from desc mask (S index) todo))%nat
          by lia.
        rewrite Hdrop. apply (drop_agree_ge _ _ (p + length img)); [lia|done].
      * intros k nm'. destruct k as [|k]; cbn [lookup list_lookup].
        -- intros [= <-]. fold img. rewrite Nat.mul_0_r, Nat.add_0_r.
           rewrite take_drop_commute.
           rewrite (take_agree_le m' m1 (p + length img) (p + 32))
             by (done || lia).
           rewrite Htake1. apply drop_app_length'. rewrite length_take. lia.
        -- intros Hk. replace (p + 32 * S k)%nat with (p + 32 + 32 * k)%nat by lia.
           by apply Hslots.
    + destruct (IH (S index) v p m)
        as (m' & Hrun & Hlen' & Htake & Hdrop & Hslots); [lia|lia|].
      exists m'. done.
    + destruct (IH (S index) v p m)
        as (m' & Hrun & Hlen' & Htake & Hdrop & Hslots); [lia|lia|].
      exists m'. done.
Qed.

End DescribeFacts.

(** C6.  [efx_nic_describe_stats] returns the number of indices below
    [count] whose bit is set in the mask and whose descriptor has a name.
    With a names buffer (large enough for that many slots), slot [k], at
    byte [ETH_GSTRING_LEN * k], holds the name of the [k]-th such index in
    ascending index order, as [strlcpy] copies it: the name itself and its
    NUL when the name is shorter than the slot.  An enabled index without a
    name takes no slot and is not counted; the buffer is untouched after
    the last slot and keeps its length. *)
Theorem describe_stats_counts_visible
    (desc : list efx_hw_stat_desc) (count : nat) (mask : list Z)
    (names : option (list Z)) :
  (count <= length desc)%nat ->
  Z.of_nat count < 2 ^ 64 ->
  (forall m, names = Some m ->
     ETH_GSTRING_LEN * Z.of_nat (length (visible_indices desc count mask))
       <= Z.of_nat (length m)) ->
  let n := length (visible_indices desc count mask) in
  length (visible_names desc count mask) = n /\
  exists names',
    efx_nic_describe_stats desc count mask names = Some (Z.of_nat n, names') /\
    (names = None -> names' = None) /\
    (forall m, names = Some m ->
       exists m',
         names' = Some m' /\
         length m' = length m /\
         drop (Z.to_nat ETH_GSTRING_LEN * n) m'
           = drop (Z.to_nat ETH_GSTRING_LEN * n) m /\
         forall k nm,
           visible_names desc count mask !! k = Some nm ->
           gstring_slot k (length (strlcpy_image nm ETH_GSTRING_LEN)) m'
             = strlcpy_image nm ETH_GSTRING_LEN /\
           (strlen nm = length nm ->
            Z.of_nat (length nm) < ETH_GSTRING_LEN ->
            gstring_slot k (S (length nm)) m' = nm ++ [0])).
Proof.
  intros Hcount Hsz Hbuf n.
  assert (Hn : (n <= count)%nat).
  { subst n. unfold visible_indices, visible_from.
    etransitivity; [apply filter_length_le|]. by rewrite length_seq. }
  assert (Hwrap : size_t (0 + Z.of_nat n) = Z.of_nat n)
    by (apply wrap_small; lia).
  split; [apply length_names_from|].
  unfold efx_nic_describe_stats, for_each_set_bit.
  change 0 with (size_t 0) at 1.
  destruct names as [m|].
  - specialize (Hbuf m eq_refl). change 0 with (Z.of_nat 0) at 2.
    destruct (describe_loop_names desc mask count 0 0 0%nat m)
      as (m' & Hrun & Hlen & _ & Hdrop & Hslots);
      [lia|fold (visible_indices desc count mask); fold n;
           unfold ETH_GSTRING_LEN in Hbuf; lia|].
    fold (visible_indices desc count mask) in Hrun, Hdrop. fold n in Hrun, Hdrop.
    rewrite Hrun. cbn [visible names_buf]. rewrite Hwrap.
    exists (Some m'). split; [done|]. split; [done|].
    intros m0 [= <-]. exists m'. split; [done|]. split; [done|].
    split; [exact Hdrop|].
    intros k nm Hk. specialize (Hslots k nm Hk). simpl in Hslots.
    unfold gstring_slot. change (Z.to_nat ETH_GSTRING_LEN) with 32%nat.
    split; [exact Hslots|].
    intros Hs Hl. rewrite strlcpy_image_fits in Hslots by done.
    rewrite length_app, Nat.add_comm in Hslots. exact Hslots.
  - rewrite describe_loop_count by lia.
    fold (visible_indices desc count mask). fold n.
    cbn [visible names_buf]. rewrite Hwrap.
    exists None. split; [done|]. split; [done|]. intros m [=].
Qed.

Lemma describe_stats_counts_visible_witness :
  let n := length (visible_indices sample_desc 6 sample_mask) in
  let names := Some (replicate 128 0xff) in
  length (visible_names sample_desc 6 sample_mask) = n /\
  exists names',
    efx_nic_describe_stats sample_desc 6 sample_mask names
      = Some (Z.of_nat n, names') /\
    (names = None -> names' = None) /\
    (forall m, names = Some m ->
       exists m',
         names' = Some m' /\
         length m' = length m /\
         drop (Z.to_nat ETH_GSTRING_LEN * n) m'
           = drop (Z.to_nat ETH_GSTRING_LEN * n) m /\
         forall k nm,
           visible_names sample_desc 6 sample_mask !! k = Some nm ->
           gstring_slot k (length (strlcpy_image nm ETH_GSTRING_LEN)) m'
             = strlcpy_image nm ETH_GSTRING_LEN /\
           (strlen nm = length nm ->
            Z.of_nat (length nm) < ETH_GSTRING_LEN ->
            gstring_slot k (S (length nm)) m' = nm ++ [0])).
Proof.
  apply (describe_stats_counts_visible sample_desc 6 sample_mask
           (Some (replicate 128 0xff))).
  - vm_compute. lia.
  - vm_compute. reflexivity.
  - intros m [= <-]. vm_compute. discriminate.
Defined.

(** The sample table described: four of the five enabled counters have a
    name; their names fill four slots of 32 bytes. *)
Example describe_stats_sample :
  visible_indices sample_desc 6 sample_mask = [0; 1; 3; 4]%nat /\
  efx_nic_describe_stats sample_desc 6 sample_mask None = Some (4, None) /\
  (exists m',
     efx_nic_describe_stats sample_desc 6 sample_mask
       (Some (replicate 128 0xff)) = Some (4, Some m') /\
     gstring_slot 0 8 m' = bytes_of "rx_good" ++ [0] /\
     gstring_slot 1 7 m' = bytes_of "rx_bad" ++ [0] /\
     gstring_slot 2 10 m' = bytes_of "tx_absent" ++ [0] /\
     gstring_slot 3 7 m' = bytes_of "tx_odd" ++ [0]).
Proof.
  split; [reflexivity|]. split; [reflexivity|].
  eexists. split; [vm_compute; reflexivity|]. repeat split.
Qed.

(** A name longer than a slot is cut to [ETH_GSTRING_LEN - 1] bytes and
    closed with a NUL, so the next slot is not run into. *)
Example describe_stats_long_name :
  let long := bytes_of "rx_a_very_long_statistic_name_of_40_byte" in
  let desc := [ {| name := Some long; dma_width := 64; offset := 0 |} ] in
  length long = 40%nat /\
  exists m',
    efx_nic_describe_stats desc 1 [1] (Some (replicate 64 0xff))
      = Some (1, Some m') /\
    gstring_slot 0 32 m' = take 31 long ++ [0] /\
    gstring_slot 1 32 m' = replicate 32 0xff.
Proof.
  split; [reflexivity|]. eexists. split; [vm_compute; reflexivity|].
  split; reflexivity.
Qed.

(** ** Interrupt binding *)

Lemma bound_of_app evs1 evs2 :
  bound_of (evs1 ++ evs2) = bound_of evs1 ++ bound_of evs2.
Proof. apply omap_app. Qed.

Lemma released_of_app evs1 evs2 :
  released_of (evs1 ++ evs2) = released_of evs1 ++ released_of evs2.
Proof. apply omap_app. Qed.

Lemma bound_of_cons e evs :
  bound_of (e :: evs) =
  match e with
  | EvRequestIrq irq dev rc => if rc =? 0 then [(irq, dev)] else []
  | _ => []
  end ++ bound_of evs.
Proof. destruct e; try reflexivity. unfold bound_of. simpl. by destruct (rc =? 0). Qed.

Lemma released_of_cons e evs :
  released_of (e :: evs) =
  match e with
  | EvFreeIrq irq dev => [(irq, dev)]
  | _ => []
  end ++ released_of evs.
Proof. by destruct e. Qed.

Lemma released_of_hook_events evs :
  forallb hook_event evs = true -> released_of evs = [].
Proof.
  induction evs as [|e evs IH]; [done|]. cbn [forallb].
  intros [He Hevs]%andb_true_iff. rewrite released_of_cons, IH by done.
  by destruct e.
Qed.

Lemma rmap_freed_first_hook_events evs1 evs2 :
  forallb hook_event evs1 = true ->
  rmap_freed_first (evs1 ++ evs2) = rmap_freed_first evs2.
Proof.
  induction evs1 as [|e evs1 IH]; [done|]. simpl.
  intros [He Hevs]%andb_true_iff. destruct e; try done; by apply IH.
Qed.

Lemma released_of_free_events l :
  released_of (map free_event l) = map channel_hook l.
Proof.
  induction l as [|c l IH]; [done|].
  cbn [map]. unfold free_event at 1. by rewrite released_of_cons, IH.
Qed.

Lemma bound_of_free_events l : bound_of (map free_event l) = [].
Proof.
  induction l as [|c l IH]; [done|].
  cbn [map]. unfold free_event at 1. by rewrite bound_of_cons, IH.
Qed.

(** A run that binds the handlers of [l] and then releases them in the
    same order has released what it bound. *)
Lemma unwind_events_balance pre evs mid l :
  released_of pre = [] -> bound_of pre = [] ->
  forallb hook_event evs = true -> bound_of evs = map channel_hook l ->
  released_of mid = [] -> bound_of mid = [] ->
  released_of (pre ++ evs ++ mid ++ map free_event l) =
  bound_of (pre ++ evs ++ mid ++ map free_event l).
Proof.
  intros Hp1 Hp2 Hf Hb Hm1 Hm2.
  rewrite !released_of_app, !bound_of_app.
  rewrite Hp1, Hp2, Hm1, Hm2, Hb, (released_of_hook_events evs Hf).
  rewrite released_of_free_events, bound_of_free_events.
  cbn [app]. by rewrite app_nil_r.
Qed.

Section InitInterruptFacts.

Variable rfs_accel : bool.
Variable efx : efx_irq_config.
Variable k : irq_kernel.

(** The hook loop binds the first [j] channels it is given, in order, and
    releases nothing. *)
Lemma hook_channels_spec chs : forall n st,
  0 <= n -> n + Z.of_nat (length chs) < 2 ^ 32 ->
  exists (j : nat) evs,
    let '(rc, n', st') := hook_channels rfs_accel efx k chs n st in
    (j <= length chs)%nat /\
    (rc = 0 -> j = length chs) /\
    n' = n + Z.of_nat j /\
    hooked st' = hooked st ++ map channel_hook (take j chs) /\
    events st' = events st ++ evs /\
    forallb hook_event evs = true /\
    bound_of evs = map channel_hook (take j chs) /\
    (is_Some (cpu_rmap st') <-> is_Some (cpu_rmap st)) /\
    rx_cpu_rmap st' = rx_cpu_rmap st.
Proof.
  induction chs as [|ch chs IH]; intros n st Hn Hlen.
  - exists 0%nat, []. simpl. rewrite !app_nil_r, Z.add_0_r. done.
  - cbn [hook_channels]. unfold request_irq.
    cbn [length] in Hlen.
    destruct (request_irq_rc k (irq ch) =? 0) eqn:Hrc; cbn [negb].
    + apply Z.eqb_eq in Hrc.
      assert (Hu : u32 (n + 1) = n + 1) by (apply wrap_small; lia).
      rewrite Hu.
      destruct (rfs_accel && is_msix (interrupt_mode efx)
                && (channel ch <? n_rx_channels efx)).
      * unfold irq_cpu_rmap_add.
        destruct (irq_cpu_rmap_add_rc k (irq ch) =? 0) eqn:Hadd; cbn [negb].
        -- match goal with |- context [hook_channels _ _ _ chs (n + 1) ?s] =>
             destruct (IH (n + 1) s) as (j & evs & H); [lia|lia|] end.
           destruct (hook_channels _ _ _ chs (n + 1) _) as [[rc n'] st'].
           destruct H as (Hj & Hall & Hn' & Hh & He & Hf & Hb & Hm & Hr).
           cbn [hooked events cpu_rmap rx_cpu_rmap] in *.
           exists (S j),
             (EvRequestIrq (irq ch) (DevMsiContext (channel ch))
                (request_irq_rc k (irq ch))
              :: EvRmapAdd (irq ch) (irq_cpu_rmap_add_rc k (irq ch)) :: evs).
           split; [simpl; lia|]. split; [intros E; simpl; f_equal; auto|].
           split; [lia|]. split; [by rewrite Hh, <- app_assoc|].
           split; [by rewrite He, <- !app_assoc|]. split; [done|].
           split; [by rewrite !bound_of_cons, Hrc, Hb|].
           split; [|done]. rewrite Hm. by rewrite fmap_is_Some.
        -- apply Z.eqb_neq in Hadd.
           exists 1%nat,
             [EvRequestIrq (irq ch) (DevMsiContext (channel ch))
                (request_irq_rc k (irq ch));
              EvRmapAdd (irq ch) (irq_cpu_rmap_add_rc k (irq ch))].
           cbn [hooked events cpu_rmap rx_cpu_rmap].
           split; [simpl; lia|]. split; [done|]. split; [lia|].
           split; [done|]. split; [by rewrite <- app_assoc|].
           split; [done|].
           split; [by rewrite !bound_of_cons, Hrc|].
           done.
      * match goal with |- context [hook_channels _ _ _ chs (n + 1) ?s] =>
          destruct (IH (n + 1) s) as (j & evs & H); [lia|lia|] end.
        destruct (hook_channels _ _ _ chs (n + 1) _) as [[rc n'] st'].
        destruct H as (Hj & Hall & Hn' & Hh & He & Hf & Hb & Hm & Hr).
        cbn [hooked events cpu_rmap rx_cpu_rmap] in *.
        exists (S j),
          (EvRequestIrq (irq ch) (DevMsiContext (channel ch))
             (request_irq_rc k (irq ch)) :: evs).
        split; [simpl; lia|]. split; [intros E; simpl; f_equal; auto|].
        split; [lia|]. split; [by rewrite Hh, <- app_assoc|].
        split; [by rewrite He, <- !app_assoc|]. split; [done|].
        split; [by rewrite !bound_of_cons, Hrc, Hb|].
        done.
    + apply Z.eqb_neq in Hrc.
      exists 0%nat,
        [EvRequestIrq (irq ch) (DevMsiContext (channel ch))
           (request_irq_rc k (irq ch)); EvNetifErr (irq ch)].
      cbn [hooked events cpu_rmap rx_cpu_rmap log_event].
      split; [lia|]. split; [done|]. split; [lia|].
      split; [by rewrite app_nil_r|]. split; [by rewrite <- app_assoc|].
      split; [done|].
      split; [apply Z.eqb_neq in Hrc; by rewrite !bound_of_cons, Hrc|].
      done.
Qed.

(** The loop under [fail2] releases the first [j] channels, in channel
    order. *)
Lemma unhook_channels_spec chs : forall (j : nat) st rest,
  (j <= length chs)%nat -> Z.of_nat j < 2 ^ 32 ->
  hooked st = map channel_hook (take j chs) ++ rest ->
  let st' := unhook_channels chs (Z.of_nat j) st in
  hooked st' = rest /\
  events st' = events st ++ map free_event (take j chs) /\
  cpu_rmap st' = cpu_rmap st /\
  rx_cpu_rmap st' = rx_cpu_rmap st.
Proof.
  induction chs as [|ch chs IH]; intros j st rest Hj Hlt Hh.
  - simpl in *. rewrite take_nil in *. rewrite app_nil_r. done.
  - cbn [unhook_channels]. destruct j as [|j].
    + simpl in *. rewrite app_nil_r. done.
    + replace (Z.of_nat (S j) =? 0) with false by (symmetry; apply Z.eqb_neq; lia).
      replace (Z.of_nat (S j) - 1) with (Z.of_nat j) by lia.
      unfold u32. rewrite wrap_small by lia.
      cbn [take map app] in Hh |- *.
      destruct (IH j (free_irq (irq ch) (DevMsiContext (channel ch)) st) rest)
        as (Hh' & He' & Hm' & Hr'); [simpl in Hj; lia|lia| |].
      * cbn [free_irq hooked]. rewrite Hh. cbn [unhook].
        unfold channel_hook at 1. by rewrite decide_True.
      * cbv zeta. rewrite Hh', He', Hm', Hr'. cbn [free_irq events cpu_rmap rx_cpu_rmap].
        rewrite <- app_assoc. done.
Qed.

End InitInterruptFacts.

(** C5, as stated, fails in the order of release: with three channels and
    the third request refused, the two handlers bound are released in the
    order they were bound, channel 0 first, not in reverse. *)
Lemma init_interrupt_release_order_counterexample :
  let r := efx_nic_init_interrupt true sample_irq_config sample_irq_kernel
             irq_idle in
  r.1 = -16 /\
  bound_of (events r.2) = [(40, DevMsiContext 0); (41, DevMsiContext 1)] /\
  released_of (events r.2) = [(40, DevMsiContext 0); (41, DevMsiContext 1)] /\
  released_of (events r.2) <> rev (bound_of (events r.2)).
Proof. vm_compute. repeat split; discriminate. Qed.

(** C5, amended.  In message-signalled mode, when the binding fails (the
    map cannot be allocated, a request is refused, or an addition to the
    map fails), then before the error is returned the CPU-affinity map, if
    one was allocated, is released first, and after it every handler bound
    so far, in the order of binding (channel order): nothing stays hooked,
    no map stays allocated, and [rx_cpu_rmap] is not set. *)
Theorem init_interrupt_failure_unwinds
    (rfs_accel : bool) (efx : efx_irq_config) (k : irq_kernel) :
  EFX_INT_MODE_USE_MSI (interrupt_mode efx) = true ->
  Z.of_nat (length (channels efx)) < 2 ^ 32 ->
  (efx_nic_init_interrupt rfs_accel efx k irq_idle).1 <> 0 ->
  let st := (efx_nic_init_interrupt rfs_accel efx k irq_idle).2 in
  let wants_rmap := rfs_accel && is_msix (interrupt_mode efx) in
  hooked st = [] /\ cpu_rmap st = None /\ rx_cpu_rmap st = false /\
  released_of (events st) = bound_of (events st) /\
  exists (j : nat) evs,
    events st =
      (if wants_rmap then [EvAllocRmap (alloc_irq_cpu_rmap_ok k)] else []) ++
      evs ++
      (if wants_rmap && alloc_irq_cpu_rmap_ok k then [EvFreeRmap] else []) ++
      map free_event (take j (channels efx)) /\
    forallb hook_event evs = true /\
    bound_of evs = map channel_hook (take j (channels efx)).
Proof.
  intros Hmsi Hlen. unfold efx_nic_init_interrupt. rewrite Hmsi. cbn [negb].
  destruct (rfs_accel && is_msix (interrupt_mode efx)) eqn:Hwants;
    destruct (alloc_irq_cpu_rmap_ok k) eqn:Halloc; cbn [andb negb].
  2:{ intros _. cbn. repeat split. exists 0%nat, []. by rewrite take_0. }
  all: match goal with |- context [hook_channels _ _ _ _ 0 ?s] =>
         destruct (hook_channels_spec rfs_accel efx k (channels efx) 0 s)
           as (j & evs & H); [lia|lia|];
         destruct (hook_channels rfs_accel efx k (channels efx) 0 s)
           as [[rc n'] st1] end;
       destruct H as (Hj & _ & Hn' & Hh & He & Hf & Hb & Hm & Hr);
       cbn [hooked events cpu_rmap rx_cpu_rmap irq_idle] in *;
       (destruct (rc =? 0) eqn:Hrc; cbn [fst snd];
        [apply Z.eqb_eq in Hrc; intros Hne; done|intros _]);
       rewrite Z.add_0_l in Hn'; subst n'.
  - (* a map was allocated *)
    apply andb_true_iff in Hwants as [-> _].
    assert (Hsome : is_Some (cpu_rmap st1)) by (apply Hm; eauto).
    destruct Hsome as [m Hmap].
    unfold free_irq_cpu_rmap. rewrite Hmap.
    match goal with |- context [unhook_channels _ (Z.of_nat j) ?s] =>
      destruct (unhook_channels_spec (channels efx) j s []) as (Hh' & He' & Hm' & Hr');
        [lia|lia|cbn [hooked]; by rewrite Hh, app_nil_r|] end.
    cbv zeta in *. cbn [hooked events cpu_rmap rx_cpu_rmap] in *.
    rewrite Hh', He', Hm', Hr', He, Hr.
    split; [done|]. split; [done|]. split; [done|].
    rewrite <- !app_assoc.
    split; [by apply unwind_events_balance|].
    exists j, evs. done.
  - (* no map was wanted *)
    assert (Hnone : cpu_rmap st1 = None).
    { destruct (cpu_rmap st1) eqn:E; [|done].
      assert (is_Some (@None (list Z))) as [? [=]] by (apply Hm; eauto). }
    assert (Hst2 : (if rfs_accel then free_irq_cpu_rmap st1 else st1) = st1).
    { destruct rfs_accel; [|done]. unfold free_irq_cpu_rmap. by rewrite Hnone. }
    rewrite Hst2.
    destruct (unhook_channels_spec (channels efx) j st1 [])
      as (Hh' & He' & Hm' & Hr'); [lia|lia|by rewrite Hh, app_nil_r|].
    cbv zeta in *. rewrite Hh', He', Hm', Hr', He, Hr, Hnone.
    split; [done|]. split; [done|]. split; [done|].
    split; [by apply (unwind_events_balance [] evs [])|].
    exists j, evs. done.
  - (* no map was wanted; the allocator is not asked *)
    assert (Hnone : cpu_rmap st1 = None).
    { destruct (cpu_rmap st1) eqn:E; [|done].
      assert (is_Some (@None (list Z))) as [? [=]] by (apply Hm; eauto). }
    assert (Hst2 : (if rfs_accel then free_irq_cpu_rmap st1 else st1) = st1).
    { destruct rfs_accel; [|done]. unfold free_irq_cpu_rmap. by rewrite Hnone. }
    rewrite Hst2.
    destruct (unhook_channels_spec (channels efx) j st1 [])
      as (Hh' & He' & Hm' & Hr'); [lia|lia|by rewrite Hh, app_nil_r|].
    cbv zeta in *. rewrite Hh', He', Hm', Hr', He, Hr, Hnone.
    split; [done|]. split; [done|]. split; [done|].
    split; [by apply (unwind_events_balance [] evs [])|].
    exists j, evs. done.
Qed.

Lemma init_interrupt_failure_unwinds_witness :
  let st := (efx_nic_init_interrupt true sample_irq_config sample_irq_kernel
               irq_idle).2 in
  let wants_rmap := true && is_msix (interrupt_mode sample_irq_config) in
  hooked st = [] /\ cpu_rmap st = None /\ rx_cpu_rmap st = false /\
  released_of (events st) = bound_of (events st) /\
  exists (j : nat) evs,
    events st =
      (if wants_rmap
       then [EvAllocRmap (alloc_irq_cpu_rmap_ok sample_irq_kernel)] else []) ++
      evs ++
      (if wants_rmap && alloc_irq_cpu_rmap_ok sample_irq_kernel
       then [EvFreeRmap] else []) ++
      map free_event (take j (channels sample_irq_config)) /\
    forallb hook_event evs = true /\
    bound_of evs = map channel_hook (take j (channels sample_irq_config)).
Proof.
  apply (init_interrupt_failure_unwinds true sample_irq_config
           sample_irq_kernel).
  - reflexivity.
  - vm_compute. reflexivity.
  - vm_compute. discriminate.
Defined.

(** The calls of the sample run: the map is allocated, two handlers are
    bound and added to the map, the third request is refused; then the map
    is released, then the handlers of channels 0 and 1, in that order. *)
Example init_interrupt_sample_events :
  events (efx_nic_init_interrupt true sample_irq_config sample_irq_kernel
            irq_idle).2
  = [ EvAllocRmap true;
      EvRequestIrq 40 (DevMsiContext 0) 0; EvRmapAdd 40 0;
      EvRequestIrq 41 (DevMsiContext 1) 0; EvRmapAdd 41 0;
      EvRequestIrq 42 (DevMsiContext 2) (-16); EvNetifErr 42;
      EvFreeRmap;
      EvFreeIrq 40 (DevMsiContext 0); EvFreeIrq 41 (DevMsiContext 1) ].
Proof. vm_compute. reflexivity. Qed.

(** ** PCIe link audit *)

Lemma lnksta_speed_range stat : 0 <= lnksta_speed stat < 16.
Proof.
  unfold lnksta_speed, PCI_EXP_LNKSTA_CLS.
  change 15 with (Z.ones 4). rewrite Z.land_ones by lia.
  apply Z.mod_pos_bound. lia.
Qed.

Lemma shl_unsigned_in_range a n :
  0 <= n < 32 -> shl_unsigned a n = Some (u32 (Z.shiftl a n)).
Proof.
  intros H. unfold shl_unsigned.
  replace ((0 <=? n) && (n <? 32)) with true; [done|].
  symmetry. apply andb_true_iff. split; [apply Z.leb_le|apply Z.ltb_lt]; lia.
Qed.

(** C9.  [efx_nic_check_pcie_link] returns 0, with no message, when the
    device has no PCI-Express capability or its link-status word cannot be
    read.  Otherwise (for a speed field of at least 1 and a [full_speed]
    from 1 to 32) it returns the negotiated width, computes
    [bandwidth = width << (speed - 1)] and
    [full_bandwidth = full_width << (full_speed - 1)], and prints the
    hard-shortfall warning exactly when [bandwidth < min_bandwidth] (and
    the other one exactly when [bandwidth < full_bandwidth]).  With
    [full_width = 8], [full_speed = 3], [min_bandwidth = 32]: width 8 at
    speed 3 has bandwidth 32 and draws no warning; width 4 has bandwidth 16
    and draws the hard-shortfall warning. *)
Theorem check_pcie_link_bandwidth :
  (forall debug pdev full_width full_speed min_bandwidth,
     pcie_cap pdev = 0 \/ lnksta_rc pdev <> 0 ->
     efx_nic_check_pcie_link debug pdev full_width full_speed min_bandwidth
       = Some (0, [])) /\
  (forall debug pdev full_width full_speed min_bandwidth,
     pcie_cap pdev <> 0 -> lnksta_rc pdev = 0 ->
     1 <= lnksta_speed (lnksta pdev) -> 1 <= full_speed <= 32 ->
     let width := lnksta_width (lnksta pdev) in
     let bandwidth :=
       u32 (Z.shiftl width (lnksta_speed (lnksta pdev) - 1)) in
     let full_bandwidth := u32 (Z.shiftl full_width (full_speed - 1)) in
     exists ws,
       efx_nic_check_pcie_link debug pdev full_width full_speed min_bandwidth
         = Some (width, ws) /\
       (warns_min_bandwidth ws = true <-> bandwidth < min_bandwidth) /\
       (warns_full_bandwidth ws = true <-> bandwidth < full_bandwidth)) /\
  (forall debug,
     let x8 := {| pcie_cap := 0x60; lnksta_rc := 0; lnksta := 0x0083 |} in
     let x4 := {| pcie_cap := 0x60; lnksta_rc := 0; lnksta := 0x0043 |} in
     (lnksta_width 0x0083, lnksta_speed 0x0083) = (8, 3) /\
     (lnksta_width 0x0043, lnksta_speed 0x0043) = (4, 3) /\
     Z.shiftl 8 (3 - 1) = 32 /\ Z.shiftl 4 (3 - 1) = 16 /\
     efx_nic_check_pcie_link debug x8 8 3 32 = Some (8, []) /\
     efx_nic_check_pcie_link debug x4 8 3 32
       = Some (4, [WarnMinBandwidth 3 4 3; WarnFullBandwidth 8 3 4 3])).
Proof.
  split; [|split].
  - intros debug pdev fw fs mb H. unfold efx_nic_check_pcie_link.
    destruct H as [H|H].
    + by rewrite H.
    + apply Z.eqb_neq in H. rewrite H. by rewrite orb_true_r.
  - intros debug pdev fw fs mb Hcap Hrc Hspeed Hfs width bandwidth full_bandwidth.
    pose proof (lnksta_speed_range (lnksta pdev)) as Hsr.
    unfold efx_nic_check_pcie_link.
    apply Z.eqb_neq in Hcap. rewrite Hcap, Hrc. cbn [Z.eqb negb orb].
    fold (lnksta_width (lnksta pdev)) (lnksta_speed (lnksta pdev)).
    fold width.
    assert (Hs : u32 (lnksta_speed (lnksta pdev) - 1)
                 = lnksta_speed (lnksta pdev) - 1) by (apply wrap_small; lia).
    assert (Hf : u32 (fs - 1) = fs - 1) by (apply wrap_small; lia).
    rewrite Hs, Hf, !shl_unsigned_in_range by lia.
    cbn [mbind option_bind]. fold bandwidth full_bandwidth.
    eexists. split; [reflexivity|].
    unfold warns_min_bandwidth, warns_full_bandwidth.
    rewrite !existsb_app.
    assert (Hw1 : forall f,
      (forall w, In w (if debug
                       then if width =? 32 then [WarnWidth32 fw]
                            else if (width =? 0) || (fw <? width)
                                 then [WarnOnWidth] else []
                       else []) -> f w = false) ->
      existsb f (if debug
                 then if width =? 32 then [WarnWidth32 fw]
                      else if (width =? 0) || (fw <? width)
                           then [WarnOnWidth] else []
                 else []) = false).
    { intros f Hfw. destruct (existsb f _) eqn:E; [|done].
      apply existsb_exists in E as (w & Hin & Hw). by rewrite Hfw in Hw. }
    rewrite !Hw1.
    2,3: intros w; destruct debug; [|done];
         destruct (width =? 32); [by intros [<-|[]]|];
         destruct ((width =? 0) || (fw <? width)); [by intros [<-|[]]|done].
    destruct (debug && _); cbn [existsb orb app];
      destruct (bandwidth <? mb) eqn:E1; destruct (bandwidth <? full_bandwidth) eqn:E2;
      cbn [existsb orb app]; rewrite ?Z.ltb_lt, ?Z.ltb_ge in *;
      split; split; intros; try done; lia.
  - intros debug. cbv zeta. repeat split; destruct debug; vm_compute; reflexivity.
Qed.
